(** * Rendonnee: the cartridge-refill application ([app.py])

    A shallow embedding of the catalog of cartridge types, of the ledger of
    refill transactions and of the fill computation, with the properties
    the specification states about them.

    Python's [float] is IEEE 754 binary64: it is embedded as Rocq's primitive
    [float], whose operations are the same binary64 operations.  The
    PostgreSQL store reached through psycopg2 is embedded as a record of two
    tables of typed rows; a connection carries the contents its session sees
    and the contents that were committed.  The masses and the ratios are kept
    in columns of type REAL, which are single precision: a row holds the
    numbers as they are read back, not as they were written. *)

From Stdlib Require Import Reals Lra.
From Stdlib Require Import ZArith List String Bool Lia Permutation Sorted.
From Stdlib Require Import PrimFloat SpecFloat FloatOps FloatAxioms.
Import ListNotations.

Set Warnings "-inexact-float".

Local Open Scope string_scope.
Local Open Scope Z_scope.

(* ------------------------------------------------------------------ *)
(** * Python values and exceptions *)

(** The objects the program passes as query arguments. *)
Inductive value : Type :=
| VNone
| VInt (n : Z)
| VFloat (x : float)
| VStr (s : string).

(** The exceptions a query can raise: the first two come from psycopg2's
    merge of the arguments into the query text, the others from the server. *)
Inductive exn : Type :=
| TypeError (msg : string)
| IndexError (msg : string)
| ProgrammingError (msg : string)
| IntegrityError (msg : string)
| DataError (msg : string).

Definition result (A : Type) : Type := (exn + A)%type.

Definition ok {A} (a : A) : result A := inr a.
Definition throw {A} (e : exn) : result A := inl e.

Definition and_then {A B} (r : result A) (k : A -> result B) : result B :=
  match r with
  | inl e => inl e
  | inr a => k a
  end.

Declare Scope result_scope.
Delimit Scope result_scope with result.
Notation "x <- r ;; k" := (and_then r (fun x => k))
  (at level 61, r at next level, right associativity) : result_scope.

(* ------------------------------------------------------------------ *)
(** * The schema of [init_db] *)

(** The values of the columns named in an INSERT or in the SET of an UPDATE. *)
Definition assignment : Type := list (string * value).

Definition lookup (column : string) (a : assignment) : option value :=
  match find (fun cv => String.eqb column (fst cv)) a with
  | Some cv => Some (snd cv)
  | None => None
  end.

(** An integer written where a real is expected, rounded to the nearest
    binary64 value. *)
Definition float_of_Z (n : Z) : float :=
  SF2Prim (binary_normalize prec emax n 0 false).

(** ** Columns of type REAL

    [init_db] declares the masses and the ratios REAL.  PostgreSQL keeps such
    a value in single precision (float4) and refuses one that is out of the
    range of the type; psycopg2 then reads back, as a binary64, the decimal
    text the server prints for the number it kept.  Written and read back,
    244.99999999999997 is 245.0 and 1234567.89 is 1234567.9, while 1e39 is
    refused with "value out of range".

    A decimal of at most six significant digits whose size is between 1e-6
    and 1e6 goes through unchanged: single precision tells such decimals
    apart (FLT_DIG is 6) and its range holds them.  So does the float 0. *)

(** The whole number nearest to [x * 10^k], from the exact value of [x]. *)
Definition nearest (x : float) (k : Z) : Z :=
  match Prim2SF x with
  | S754_finite s m e =>
      cond_Zopp s
        (if 0 <=? e then Z.pos m * 10 ^ k * 2 ^ e
         else (2 * Z.pos m * 10 ^ k + 2 ^ (- e)) / 2 ^ (1 - e))
  | _ => 0
  end.

(** [x] is the binary64 nearest to [n / 10^k], with [0 < |n| < 10^6]. *)
Definition decimal_of (x : float) (k : Z) : bool :=
  let n := nearest x k in
  (0 <? Z.abs n) && (Z.abs n <? 1000000)
  && (float_of_Z n / float_of_Z (10 ^ k) =? x)%float.

Definition short_decimal (x : float) : bool :=
  match Prim2SF x with
  | S754_zero s => negb s
  | _ => existsb (decimal_of x) [0; 1; 2; 3; 4; 5; 6]
  end.

(** What a REAL column gives back for the float [x] written to it, or the
    error the server raises.  [server] is the server's answer for the values
    that are not short decimals: it depends on the digits the server prints,
    which the program does not fix. *)
Definition real (server : float -> result float) (x : float) : result float :=
  if short_decimal x then ok x else server x.

(** A server that prints a real with the shortest digits that identify it,
    as PostgreSQL does by default since version 12.  The float written goes
    as the text of Python's [repr], the shortest decimal that reads as the
    float; the server keeps the single-precision number nearest to it unless
    that number is infinite or zero; it prints the shortest decimal that
    reads as the number kept, and psycopg2 reads the binary64 nearest to
    that. *)

(** The float of a format nearest to [n * 10^k], for [0 < n]. *)
Definition of_decimal (prec emax : Z) (n k : Z) : spec_float :=
  if 0 <=? k then binary_normalize prec emax (n * 10 ^ k) 0 false
  else SFdiv prec emax (S754_finite false (Z.to_pos n) 0)
         (S754_finite false (Z.to_pos (10 ^ (- k))) 0).

Definition reads_as (prec emax : Z) (n k : Z) (f : spec_float) : bool :=
  (0 <? n)
  && match SFcompare (of_decimal prec emax n k) f with
     | Some Eq => true
     | _ => false
     end.

(** The multiple of [10^k] next to [m * 2^e] that the format reads as
    [m * 2^e], if there is one: the nearer of the two, the even one on a
    tie. *)
Definition decimal_at (prec emax : Z) (m : positive) (e k : Z) : option Z :=
  let num := Z.pos m * 2 ^ Z.max e 0 * 10 ^ Z.max (- k) 0 in
  let den := 2 ^ Z.max (- e) 0 * 10 ^ Z.max k 0 in
  let lo := num / den in
  let hi := lo + 1 in
  let f := S754_finite false m e in
  match reads_as prec emax lo k f, reads_as prec emax hi k f with
  | true, true =>
      match 2 * (num mod den) ?= den with
      | Lt => Some lo
      | Gt => Some hi
      | Eq => Some (if Z.even lo then lo else hi)
      end
  | true, false => Some lo
  | false, true => Some hi
  | false, false => None
  end.

(** From the largest power of ten down: the first that has such a multiple
    gives the decimal with the fewest digits. *)
Fixpoint shortest_from (fuel : nat) (prec emax : Z) (m : positive) (e k : Z)
  : Z * Z :=
  match fuel with
  | O => (Z.pos m * 2 ^ Z.max e 0 * 5 ^ Z.max (- e) 0, Z.min e 0)
  | S fuel' =>
      match decimal_at prec emax m e k with
      | Some n => (n, k)
      | None => shortest_from fuel' prec emax m e (k - 1)
      end
  end.

Definition shortest (prec emax : Z) (m : positive) (e : Z) : Z * Z :=
  shortest_from 24 prec emax m e
    ((Z.pos (digits2_pos m) + e) * 30103 / 100000 + 2).

Definition single_precision (x : float) : result float :=
  match Prim2SF x with
  | S754_zero _ => ok 0%float
  | S754_finite s m e =>
      let '(n, k) := shortest prec emax m e in
      match of_decimal 24 128 n k with
      | S754_finite _ m4 e4 =>
          let '(n', k') := shortest 24 128 m4 e4 in
          let y := SF2Prim (of_decimal prec emax n' k') in
          ok (if s then (- y)%float else y)
      | _ => throw (DataError "value out of range for type real")
      end
  | _ => ok x
  end.

(** Conversions of an argument to the type of the column it is assigned to.
    The program gives text to the text columns, floats (or the integer 0) to
    the real ones and integers to the integer ones; any other pairing is
    refused here with DataError. *)
Definition to_text (v : value) : result (option string) :=
  match v with
  | VNone => ok None
  | VStr s => ok (Some s)
  | _ => throw (DataError "column is of type text")
  end.

Definition to_real (server : float -> result float) (v : value)
  : result (option float) :=
  match v with
  | VNone => ok None
  | VFloat x => (y <- real server x ;; ok (Some y))%result
  | VInt n => (y <- real server (float_of_Z n) ;; ok (Some y))%result
  | VStr _ => throw (DataError "invalid input syntax for type real")
  end.

Definition to_integer (v : value) : result (option Z) :=
  match v with
  | VNone => ok None
  | VInt n => ok (Some n)
  | _ => throw (DataError "invalid input syntax for type integer")
  end.

(** NOT NULL: a column that is absent from the statement, or given None,
    violates the constraint. *)
Definition not_null {A} (conv : value -> result (option A))
    (column : string) (a : assignment) : result A :=
  match lookup column a with
  | None => throw (IntegrityError column)
  | Some v =>
      match conv v with
      | inl e => inl e
      | inr None => throw (IntegrityError column)
      | inr (Some x) => ok x
      end
  end.

Definition nullable {A} (conv : value -> result (option A))
    (column : string) (a : assignment) : result (option A) :=
  match lookup column a with
  | None => ok None
  | Some v => conv v
  end.

(** The value SET gives a column, converted to the column's type when the
    statement is prepared, whether or not a row matches: [None] when the
    column is not named. *)
Definition assigned {A} (conv : value -> result (option A))
    (column : string) (a : assignment) : result (option (option A)) :=
  match lookup column a with
  | None => ok None
  | Some v => (x <- conv v ;; ok (Some x))%result
  end.

(** The new value of a column of a row that matches: the assigned one when
    the column is named, the row's own otherwise; NOT NULL refuses None. *)
Definition put {A} (column : string) (x : option (option A)) (old : A) : result A :=
  match x with
  | None => ok old
  | Some None => throw (IntegrityError column)
  | Some (Some y) => ok y
  end.

Definition known (columns : list string) (a : assignment) : bool :=
  forallb (fun cv => existsb (String.eqb (fst cv)) columns) a.

(** Table [cartridge_types]. *)
Module CartridgeType.

Record row : Type := {
  id : Z;
  name : string;
  full_gas_mass : float;
  empty_mass : float;
  color : string;
  butane : float;
  propane : float
}.

Definition columns : list string :=
  ["name"; "full_gas_mass"; "empty_mass"; "color"; "butane"; "propane"].

(** The row an INSERT builds; [id] comes from the SERIAL sequence. *)
Definition inserted (server : float -> result float) (new_id : Z) (a : assignment)
  : result row :=
  if negb (known columns a)
  then throw (ProgrammingError "column of relation cartridge_types does not exist")
  else
    (n <- not_null to_text "name" a ;;
     f <- not_null (to_real server) "full_gas_mass" a ;;
     e <- not_null (to_real server) "empty_mass" a ;;
     c <- not_null to_text "color" a ;;
     b <- not_null (to_real server) "butane" a ;;
     p <- not_null (to_real server) "propane" a ;;
     ok {| id := new_id; name := n; full_gas_mass := f; empty_mass := e;
           color := c; butane := b; propane := p |})%result.

(** UPDATE ... SET: the values are converted first; what comes out is the
    change a matching row undergoes. *)
Definition set (server : float -> result float) (a : assignment)
  : result (row -> result row) :=
  if negb (known columns a)
  then throw (ProgrammingError "column of relation cartridge_types does not exist")
  else
    (n <- assigned to_text "name" a ;;
     f <- assigned (to_real server) "full_gas_mass" a ;;
     e <- assigned (to_real server) "empty_mass" a ;;
     c <- assigned to_text "color" a ;;
     b <- assigned (to_real server) "butane" a ;;
     p <- assigned (to_real server) "propane" a ;;
     ok (fun r =>
           n' <- put "name" n (name r) ;;
           f' <- put "full_gas_mass" f (full_gas_mass r) ;;
           e' <- put "empty_mass" e (empty_mass r) ;;
           c' <- put "color" c (color r) ;;
           b' <- put "butane" b (butane r) ;;
           p' <- put "propane" p (propane r) ;;
           ok {| id := id r; name := n'; full_gas_mass := f'; empty_mass := e';
                 color := c'; butane := b'; propane := p' |}))%result.

End CartridgeType.

(** Table [transactions]; [client_name] is the one nullable column. *)
Module Transaction.

Record row : Type := {
  id : Z;
  date : string;
  cartridge_type_id : Z;
  color : string;
  measured_weight : float;
  gas_mass : float;
  missing_gas : float;
  butane_to_add : float;
  propane_to_add : float;
  client_name : option string
}.

Definition columns : list string :=
  ["date"; "cartridge_type_id"; "color"; "measured_weight"; "gas_mass";
   "missing_gas"; "butane_to_add"; "propane_to_add"; "client_name"].

Definition inserted (server : float -> result float) (new_id : Z) (a : assignment)
  : result row :=
  if negb (known columns a)
  then throw (ProgrammingError "column of relation transactions does not exist")
  else
    (d <- not_null to_text "date" a ;;
     t <- not_null to_integer "cartridge_type_id" a ;;
     c <- not_null to_text "color" a ;;
     w <- not_null (to_real server) "measured_weight" a ;;
     g <- not_null (to_real server) "gas_mass" a ;;
     m <- not_null (to_real server) "missing_gas" a ;;
     b <- not_null (to_real server) "butane_to_add" a ;;
     p <- not_null (to_real server) "propane_to_add" a ;;
     n <- nullable to_text "client_name" a ;;
     ok {| id := new_id; date := d; cartridge_type_id := t; color := c;
           measured_weight := w; gas_mass := g; missing_gas := m;
           butane_to_add := b; propane_to_add := p; client_name := n |})%result.

Definition set (server : float -> result float) (a : assignment)
  : result (row -> result row) :=
  if negb (known columns a)
  then throw (ProgrammingError "column of relation transactions does not exist")
  else
    (d <- assigned to_text "date" a ;;
     t <- assigned to_integer "cartridge_type_id" a ;;
     c <- assigned to_text "color" a ;;
     w <- assigned (to_real server) "measured_weight" a ;;
     g <- assigned (to_real server) "gas_mass" a ;;
     m <- assigned (to_real server) "missing_gas" a ;;
     b <- assigned (to_real server) "butane_to_add" a ;;
     p <- assigned (to_real server) "propane_to_add" a ;;
     n <- assigned to_text "client_name" a ;;
     ok (fun r =>
           d' <- put "date" d (date r) ;;
           t' <- put "cartridge_type_id" t (cartridge_type_id r) ;;
           c' <- put "color" c (color r) ;;
           w' <- put "measured_weight" w (measured_weight r) ;;
           g' <- put "gas_mass" g (gas_mass r) ;;
           m' <- put "missing_gas" m (missing_gas r) ;;
           b' <- put "butane_to_add" b (butane_to_add r) ;;
           p' <- put "propane_to_add" p (propane_to_add r) ;;
           ok {| id := id r; date := d'; cartridge_type_id := t'; color := c';
                 measured_weight := w'; gas_mass := g'; missing_gas := m';
                 butane_to_add := b'; propane_to_add := p';
                 client_name := match n with
                                | None => client_name r
                                | Some x => x
                                end |}))%result.

End Transaction.

(** A row of the joined SELECT of [get_transactions], under the column names
    the DataFrame gives it. *)
Module History.

Record row : Type := {
  ID : Z;
  Date : string;
  Type_de_cartouche : string;
  Couleur : string;
  Poids_mesure : float;
  Masse_de_gaz : float;
  Gaz_manquant : float;
  Butane_a_ajouter : float;
  Propane_a_ajouter : float;
  Nom_du_client : option string
}.

End History.

(** The store: the rows of the two tables in the order a SELECT without
    ORDER BY returns them, and the next values of the two sequences.
    [foreign_key] tells whether table [transactions] carries the FOREIGN KEY
    constraint that [init_db] declares: CREATE TABLE IF NOT EXISTS leaves a
    table that already exists as it is.  [float4] is the server's answer for
    the reals that are not short decimals (see [real]). *)
Record database : Type := {
  cartridge_types : list CartridgeType.row;
  cartridge_types_id_seq : Z;
  transactions : list Transaction.row;
  transactions_id_seq : Z;
  foreign_key : bool;
  float4 : float -> result float
}.

(** What a REAL column of the store gives back for [x]. *)
Definition stored (d : database) (x : float) : result float := real (float4 d) x.

(* ------------------------------------------------------------------ *)
(** * The session: connection, rendered page, clock *)

(** What Streamlit has put on the page.  An f-string is kept as its pieces:
    literal text and the numbers formatted into it. *)
Inductive piece : Type :=
| Text (s : string)
| Fixed (digits : nat) (x : float).

Inductive element : Type :=
| st_error (msg : string)
| st_success (msg : string)
| st_subheader (msg : string)
| st_write (body : list piece).

(** [session] is what the connection's open transaction sees, [durable] what
    has been committed; [clock] is the text [datetime.now().strftime] gives. *)
Record world : Type := {
  session : database;
  durable : database;
  page : list element;
  clock : string
}.

(** [get_connection]: a new connection sees the committed contents. *)
Definition get_connection (d : database) (now : string) : world :=
  {| session := d; durable := d; page := []; clock := now |}.

(** A computation of the application: it may raise, and it leaves a world. *)
Definition App (A : Type) : Type := world -> result A * world.

Definition ret {A} (a : A) : App A := fun w => (inr a, w).

Definition raise {A} (e : exn) : App A := fun w => (inl e, w).

Definition bind {A B} (m : App A) (k : A -> App B) : App B :=
  fun w =>
    match m w with
    | (inl e, w') => (inl e, w')
    | (inr a, w') => k a w'
    end.

Declare Scope app_scope.
Delimit Scope app_scope with app.
Notation "x <- m ;; k" := (bind m (fun x => k))
  (at level 61, m at next level, right associativity) : app_scope.
Notation "m ;; k" := (bind m (fun _ => k))
  (at level 61, right associativity) : app_scope.

Definition render (e : element) : App unit :=
  fun w => (inr tt, {| session := session w; durable := durable w;
                       page := page w ++ [e]; clock := clock w |}).

Definition datetime_now : App string := fun w => (inr (clock w), w).

(** [conn.commit()]. *)
Definition commit : App unit :=
  fun w => (inr tt, {| session := session w; durable := session w;
                       page := page w; clock := clock w |}).

(* ------------------------------------------------------------------ *)
(** * Queries *)

Inductive table : Type := Cartridge_types | Transactions.

(** The statements of the program, indexed by what the cursor hands back.
    [INSERT_INTO t columns n] has [n] placeholders after VALUES;
    [UPDATE_SET_WHERE_id t columns] has one placeholder per column of SET and
    one for the id; [DELETE_WHERE_id t] has one. *)
Inductive sql : Type -> Type :=
| SELECT_COUNT (t : table) : sql Z
| SELECT_cartridge_types : sql (list CartridgeType.row)
| SELECT_JOIN_ORDER_BY_date_DESC : sql (list History.row)
| INSERT_INTO (t : table) (columns : list string) (values : nat) : sql unit
| UPDATE_SET_WHERE_id (t : table) (columns : list string) : sql unit
| DELETE_WHERE_id (t : table) : sql unit.

Definition placeholders {A} (q : sql A) : nat :=
  match q with
  | INSERT_INTO _ _ n => n
  | UPDATE_SET_WHERE_id _ columns => S (List.length columns)
  | DELETE_WHERE_id _ => 1
  | _ => 0
  end.

(** psycopg2 merges the arguments into the query text before anything is
    sent: each [%s] takes the next argument. *)
Definition mogrify (n : nat) (vars : list value) : result (list value) :=
  if (List.length vars <? n)%nat
  then throw (IndexError "tuple index out of range")
  else if (n <? List.length vars)%nat
  then throw (TypeError "not all arguments converted during string formatting")
  else ok vars.

(** The target columns of an INSERT paired with the expressions of VALUES. *)
Definition assign (columns : list string) (exprs : list value) : result assignment :=
  if (List.length exprs <? List.length columns)%nat
  then throw (ProgrammingError "INSERT has more target columns than expressions")
  else if (List.length columns <? List.length exprs)%nat
  then throw (ProgrammingError "INSERT has more expressions than target columns")
  else ok (combine columns exprs).

Fixpoint traverse {A B} (f : A -> result B) (l : list A) : result (list B) :=
  match l with
  | [] => ok []
  | x :: rest =>
      (y <- f x ;; ys <- traverse f rest ;; ok (y :: ys))%result
  end.

(** The rows of the join for one transaction: one per cartridge type whose
    id is the transaction's [cartridge_type_id]. *)
Definition joined (types : list CartridgeType.row) (t : Transaction.row)
  : list History.row :=
  map (fun ct =>
         {| History.ID := Transaction.id t;
            History.Date := Transaction.date t;
            History.Type_de_cartouche := CartridgeType.name ct;
            History.Couleur := Transaction.color t;
            History.Poids_mesure := Transaction.measured_weight t;
            History.Masse_de_gaz := Transaction.gas_mass t;
            History.Gaz_manquant := Transaction.missing_gas t;
            History.Butane_a_ajouter := Transaction.butane_to_add t;
            History.Propane_a_ajouter := Transaction.propane_to_add t;
            History.Nom_du_client := Transaction.client_name t |})
      (filter (fun ct => Transaction.cartridge_type_id t =? CartridgeType.id ct) types).

(** ORDER BY date DESC, on the text of the date. *)
Fixpoint insert_by_date (r : History.row) (l : list History.row) : list History.row :=
  match l with
  | [] => [r]
  | x :: rest =>
      if String.leb (History.Date x) (History.Date r)
      then r :: x :: rest
      else x :: insert_by_date r rest
  end.

Definition order_by_date_desc (l : list History.row) : list History.row :=
  fold_right insert_by_date [] l.

Definition where_id (vars : list value) : result (option Z) :=
  match vars with
  | [v] => to_integer v
  | _ => throw (ProgrammingError "syntax error")
  end.

Definition same_id (n : option Z) (i : Z) : bool :=
  match n with
  | Some k => i =? k
  | None => false
  end.

Definition with_cartridge_types (l : list CartridgeType.row) (seq : Z) (d : database) :=
  {| cartridge_types := l; cartridge_types_id_seq := seq;
     transactions := transactions d; transactions_id_seq := transactions_id_seq d;
     foreign_key := foreign_key d; float4 := float4 d |}.

Definition with_transactions (l : list Transaction.row) (seq : Z) (d : database) :=
  {| cartridge_types := cartridge_types d;
     cartridge_types_id_seq := cartridge_types_id_seq d;
     transactions := l; transactions_id_seq := seq;
     foreign_key := foreign_key d; float4 := float4 d |}.

(** FOREIGN KEY(cartridge_type_id) REFERENCES cartridge_types(id), where the
    table carries it. *)
Definition references (d : database) (t : Transaction.row) : bool :=
  negb (foreign_key d)
  || existsb (fun ct => CartridgeType.id ct =? Transaction.cartridge_type_id t)
       (cartridge_types d).

Definition referenced (d : database) (ct : CartridgeType.row) : bool :=
  foreign_key d
  && existsb (fun t => Transaction.cartridge_type_id t =? CartridgeType.id ct)
       (transactions d).

(** What the server does with a statement whose arguments are merged in.
    An INSERT puts the new row after the rows of the table; an UPDATE writes
    a new version of each row it changes, which a later SELECT returns after
    the rows that were left alone. *)
Definition run {A} (q : sql A) : list value -> database -> result (A * database) :=
  match q in sql A return list value -> database -> result (A * database) with
  | SELECT_COUNT Cartridge_types => fun _ d =>
      ok (Z.of_nat (List.length (cartridge_types d)), d)
  | SELECT_COUNT Transactions => fun _ d =>
      ok (Z.of_nat (List.length (transactions d)), d)
  | SELECT_cartridge_types => fun _ d =>
      ok (cartridge_types d, d)
  | SELECT_JOIN_ORDER_BY_date_DESC => fun _ d =>
      ok (order_by_date_desc (flat_map (joined (cartridge_types d)) (transactions d)), d)
  | INSERT_INTO Cartridge_types columns _ => fun vars d =>
      (a <- assign columns vars ;;
       r <- CartridgeType.inserted (float4 d) (cartridge_types_id_seq d) a ;;
       if existsb (fun x => CartridgeType.id x =? CartridgeType.id r) (cartridge_types d)
       then throw (IntegrityError "cartridge_types_pkey")
       else ok (tt, with_cartridge_types (cartridge_types d ++ [r])
                      (cartridge_types_id_seq d + 1) d))%result
  | INSERT_INTO Transactions columns _ => fun vars d =>
      (a <- assign columns vars ;;
       r <- Transaction.inserted (float4 d) (transactions_id_seq d) a ;;
       if existsb (fun x => Transaction.id x =? Transaction.id r) (transactions d)
       then throw (IntegrityError "transactions_pkey")
       else if negb (references d r)
       then throw (IntegrityError "transactions_cartridge_type_id_fkey")
       else ok (tt, with_transactions (transactions d ++ [r])
                      (transactions_id_seq d + 1) d))%result
  | UPDATE_SET_WHERE_id Cartridge_types columns => fun vars d =>
      (n <- where_id (skipn (List.length columns) vars) ;;
       change <- CartridgeType.set (float4 d) (combine columns vars) ;;
       l <- traverse change
              (filter (fun r => same_id n (CartridgeType.id r)) (cartridge_types d)) ;;
       ok (tt, with_cartridge_types
                 (filter (fun r => negb (same_id n (CartridgeType.id r)))
                    (cartridge_types d) ++ l)
                 (cartridge_types_id_seq d) d))%result
  | UPDATE_SET_WHERE_id Transactions columns => fun vars d =>
      (n <- where_id (skipn (List.length columns) vars) ;;
       change <- Transaction.set (float4 d) (combine columns vars) ;;
       l <- traverse change
              (filter (fun r => same_id n (Transaction.id r)) (transactions d)) ;;
       if existsb (String.eqb "cartridge_type_id") columns
          && negb (forallb (references d) l)
       then throw (IntegrityError "transactions_cartridge_type_id_fkey")
       else ok (tt, with_transactions
                      (filter (fun r => negb (same_id n (Transaction.id r)))
                         (transactions d) ++ l)
                      (transactions_id_seq d) d))%result
  | DELETE_WHERE_id Cartridge_types => fun vars d =>
      (n <- where_id vars ;;
       if existsb (fun ct => same_id n (CartridgeType.id ct) && referenced d ct)
            (cartridge_types d)
       then throw (IntegrityError "transactions_cartridge_type_id_fkey")
       else ok (tt, with_cartridge_types
                      (filter (fun ct => negb (same_id n (CartridgeType.id ct)))
                         (cartridge_types d))
                      (cartridge_types_id_seq d) d))%result
  | DELETE_WHERE_id Transactions => fun vars d =>
      (n <- where_id vars ;;
       ok (tt, with_transactions
                 (filter (fun t => negb (same_id n (Transaction.id t))) (transactions d))
                 (transactions_id_seq d) d))%result
  end.

(** [cursor.execute(query, vars)]: merge the arguments, then run the statement
    in the session.  A statement that raises leaves the session as it was. *)
Definition execute {A} (q : sql A) (vars : list value) : App A :=
  fun w =>
    match mogrify (placeholders q) vars with
    | inl e => (inl e, w)
    | inr args =>
        match run q args (session w) with
        | inl e => (inl e, w)
        | inr (a, d) =>
            (inr a, {| session := d; durable := durable w;
                       page := page w; clock := clock w |})
        end
    end.

(** [cursor.executemany(query, vars_list)]. *)
Fixpoint executemany (q : sql unit) (vars_list : list (list value)) : App unit :=
  match vars_list with
  | [] => ret tt
  | vars :: rest => (execute q vars ;; executemany q rest)%app
  end.

(* ------------------------------------------------------------------ *)
(** * The catalog *)

Local Open Scope float_scope.

Definition default_types : list (list value) :=
  [ [VStr "Type A"; VFloat 400.0; VFloat 200.0; VStr "Bleu"; VFloat 0.70; VFloat 0.30];
    [VStr "Type B"; VFloat 500.0; VFloat 250.0; VStr "Rouge"; VFloat 0.60; VFloat 0.40];
    [VStr "Type C"; VFloat 450.0; VFloat 220.0; VStr "Bleu"; VFloat 0.70; VFloat 0.30];
    [VStr "Type D"; VFloat 600.0; VFloat 300.0; VStr "Rouge"; VFloat 0.60; VFloat 0.40];
    [VStr "Type E"; VFloat 550.0; VFloat 280.0; VStr "Bleu"; VFloat 0.70; VFloat 0.30] ].

Definition add_default_cartridge_types : App unit :=
  (count <- execute (SELECT_COUNT Cartridge_types) [] ;;
   if (count =? 0)%Z
   then
     executemany
       (INSERT_INTO Cartridge_types
          ["name"; "full_gas_mass"; "empty_mass"; "color"; "butane"; "propane"] 6)
       default_types ;;
     commit
   else ret tt)%app.

Definition get_cartridge_types : App (list CartridgeType.row) :=
  execute SELECT_cartridge_types [].

Definition add_cartridge_type (name : string) (full_gas_mass empty_mass : float)
    (color : string) (butane propane : float) : App unit :=
  (execute
     (INSERT_INTO Cartridge_types
        ["name"; "full_gas_mass"; "empty_mass"; "color"; "butane"; "propane"] 6)
     [VStr name; VFloat full_gas_mass; VFloat empty_mass; VStr color;
      VFloat butane; VFloat propane] ;;
   commit)%app.

Definition update_cartridge_type (id : Z) (name : string)
    (full_gas_mass empty_mass : float) (color : string) (butane propane : float)
  : App unit :=
  (execute
     (UPDATE_SET_WHERE_id Cartridge_types
        ["name"; "full_gas_mass"; "empty_mass"; "color"; "butane"; "propane"])
     [VStr name; VFloat full_gas_mass; VFloat empty_mass; VStr color;
      VFloat butane; VFloat propane; VInt id] ;;
   commit)%app.

Definition delete_cartridge_type (type_id : Z) : App unit :=
  (execute (DELETE_WHERE_id Cartridge_types) [VInt type_id] ;;
   commit)%app.

(* ------------------------------------------------------------------ *)
(** * The ledger *)

(** The statement lists nine columns and writes six placeholders, as the
    source does. *)
Definition add_transaction (cartridge_type_id : Z) (color : string)
    (measured_weight gas_mass missing_gas butane_to_add propane_to_add : float)
    (client_name : string) : App unit :=
  (date_str <- datetime_now ;;
   execute
     (INSERT_INTO Transactions
        ["date"; "cartridge_type_id"; "color"; "measured_weight"; "gas_mass";
         "missing_gas"; "butane_to_add"; "propane_to_add"; "client_name"] 6)
     [VStr date_str; VInt cartridge_type_id; VStr color; VFloat measured_weight;
      VFloat gas_mass; VFloat missing_gas; VFloat butane_to_add;
      VFloat propane_to_add; VStr client_name] ;;
   commit)%app.

Definition get_transactions : App (list History.row) :=
  execute SELECT_JOIN_ORDER_BY_date_DESC [].

Definition delete_transaction (transaction_id : Z) : App unit :=
  (execute (DELETE_WHERE_id Transactions) [VInt transaction_id] ;;
   commit)%app.

Definition update_transaction (transaction_id : Z) (new_date : string)
    (new_measured_weight new_gas_mass new_missing_gas new_butane_to_add
     new_propane_to_add : float) (new_client_name : string) : App unit :=
  (execute
     (UPDATE_SET_WHERE_id Transactions
        ["date"; "measured_weight"; "gas_mass"; "missing_gas"; "butane_to_add";
         "propane_to_add"; "client_name"])
     [VStr new_date; VFloat new_measured_weight; VFloat new_gas_mass;
      VFloat new_missing_gas; VFloat new_butane_to_add;
      VFloat new_propane_to_add; VStr new_client_name; VInt transaction_id] ;;
   commit)%app.

(* ------------------------------------------------------------------ *)
(** * The forms of [main] *)

(** The figures of a fill. *)
Record fill : Type := {
  gas_mass : float;
  missing_gas : float;
  butane_to_add : float;
  propane_to_add : float
}.

(** The computation under the button "Calculer et Enregistrer" ([main], from
    [empty_mass = ...] to [propane_to_add = ...]); the specification calls it
    computeFill.  [None] is the branch taken when [gas_mass < 0].  The clamp
    yields Python's integer 0, which behaves as the float 0 in the products. *)
Definition compute_fill (selected_type : CartridgeType.row) (measured_weight : float)
  : option fill :=
  let empty_mass := CartridgeType.empty_mass selected_type in
  let full_gas_mass := CartridgeType.full_gas_mass selected_type in
  let gas_mass := measured_weight - empty_mass in
  if gas_mass <? 0 then None
  else
    let missing_gas := full_gas_mass - gas_mass in
    let missing_gas := if 0 <? missing_gas then missing_gas else 0 in
    let butane_percentage := CartridgeType.butane selected_type in
    let propane_percentage := CartridgeType.propane selected_type in
    let butane_to_add := missing_gas * butane_percentage in
    let propane_to_add := missing_gas * propane_percentage in
    Some {| gas_mass := gas_mass; missing_gas := missing_gas;
            butane_to_add := butane_to_add; propane_to_add := propane_to_add |}.

(** The button "Calculer et Enregistrer" of the page "Transaction". *)
Definition calculer_et_enregistrer (selected_type : CartridgeType.row)
    (client_name : string) (measured_weight : float) : App unit :=
  match compute_fill selected_type measured_weight with
  | None =>
      render (st_error "Le poids mesuré est inférieur à la masse du contenant vide.")
  | Some f =>
      (render (st_subheader "Résultats") ;;
       render (st_write [Text "Masse de gaz actuel : **"; Fixed 2 (gas_mass f); Text " g**"]) ;;
       render (st_write [Text "Gaz manquant pour remplir : **"; Fixed 2 (missing_gas f);
                         Text " g**"]) ;;
       render (st_write [Text "Pour une cartouche "; Text (CartridgeType.color selected_type);
                         Text " :"]) ;;
       render (st_write [Text " - Butane ("; Fixed 0 (CartridgeType.butane selected_type * 100);
                         Text "%): **"; Fixed 2 (butane_to_add f); Text " g**"]) ;;
       render (st_write [Text " - Propane ("; Fixed 0 (CartridgeType.propane selected_type * 100);
                         Text "%): **"; Fixed 2 (propane_to_add f); Text " g**"]) ;;
       add_transaction (CartridgeType.id selected_type)
         (CartridgeType.color selected_type) measured_weight (gas_mass f)
         (missing_gas f) (butane_to_add f) (propane_to_add f) client_name ;;
       render (st_success "Transaction enregistrée avec succès!"))%app
  end.

(** The form "ajout_type" of the page "Configuration", once submitted. *)
Definition ajouter (new_name : string) (new_full_gas_mass new_empty_mass : float)
    (new_color : string) (new_butane new_propane : float) : App unit :=
  match new_name with
  | EmptyString =>
      render (st_error "Veuillez entrer un nom pour le type de cartouche.")
  | _ =>
      (add_cartridge_type new_name new_full_gas_mass new_empty_mass new_color
         new_butane new_propane ;;
       render (st_success "Nouveau type ajouté!"))%app
  end.

(* ------------------------------------------------------------------ *)
(** * The vocabulary of the specification *)

(** The columns an INSERT into [cartridge_types] gives, without the id. *)
Definition seed_row : Type := (string * float * float * string * float * float)%type.

Definition seed_values (r : CartridgeType.row) : seed_row :=
  (CartridgeType.name r, CartridgeType.full_gas_mass r, CartridgeType.empty_mass r,
   CartridgeType.color r, CartridgeType.butane r, CartridgeType.propane r).

(** The seed table as the specification prints it. *)
Definition spec_seed_table : list seed_row :=
  [ ("Type A", 400.0, 200.0, "Blue", 0.70, 0.30);
    ("Type B", 500.0, 250.0, "Red", 0.60, 0.40);
    ("Type C", 450.0, 220.0, "Blue", 0.70, 0.30);
    ("Type D", 600.0, 300.0, "Red", 0.60, 0.40);
    ("Type E", 550.0, 280.0, "Blue", 0.70, 0.30) ].

(** The type of the specification's scenarios. *)
Definition scenario_type : CartridgeType.row :=
  {| CartridgeType.id := 1; CartridgeType.name := "Type A";
     CartridgeType.full_gas_mass := 400.0; CartridgeType.empty_mass := 200.0;
     CartridgeType.color := "Bleu"; CartridgeType.butane := 0.70;
     CartridgeType.propane := 0.30 |}.

(** [max(0, x)] as Python evaluates it. *)
Definition max0 (x : float) : float := if 0 <? x then x else 0.

(** An empty store, as [init_db] creates it. *)
Definition empty_database : database :=
  {| cartridge_types := []; cartridge_types_id_seq := 1;
     transactions := []; transactions_id_seq := 1; foreign_key := true;
     float4 := single_precision |}.

(** Running a computation on a fresh connection: its outcome, what is on
    the page, what the session sees and what is committed in the end. *)
Definition outcome {A} (m : App A) (d : database) (now : string) : result A :=
  fst (m (get_connection d now)).

Definition rendered {A} (m : App A) (d : database) (now : string) : list element :=
  page (snd (m (get_connection d now))).

Definition seen {A} (m : App A) (d : database) (now : string) : database :=
  session (snd (m (get_connection d now))).

Definition committed {A} (m : App A) (d : database) (now : string) : database :=
  durable (snd (m (get_connection d now))).

(** The store after a start of the application that seeds the catalog. *)
Definition startup (now : string) (d : database) : database :=
  committed add_default_cartridge_types d now.

Local Open Scope Z_scope.

(** No row of the table has the id the sequence is about to give. *)
Definition fresh_id (i : Z) (l : list CartridgeType.row) : Prop :=
  forall r, In r l -> CartridgeType.id r <> i.

(** The store once the five default types are inserted in an empty catalog. *)
Definition seeded (d : database) : database :=
  let i := cartridge_types_id_seq d in
  with_cartridge_types
    [ {| CartridgeType.id := i; CartridgeType.name := "Type A";
         CartridgeType.full_gas_mass := 400.0; CartridgeType.empty_mass := 200.0;
         CartridgeType.color := "Bleu"; CartridgeType.butane := 0.70;
         CartridgeType.propane := 0.30 |};
      {| CartridgeType.id := i + 1; CartridgeType.name := "Type B";
         CartridgeType.full_gas_mass := 500.0; CartridgeType.empty_mass := 250.0;
         CartridgeType.color := "Rouge"; CartridgeType.butane := 0.60;
         CartridgeType.propane := 0.40 |};
      {| CartridgeType.id := i + 1 + 1; CartridgeType.name := "Type C";
         CartridgeType.full_gas_mass := 450.0; CartridgeType.empty_mass := 220.0;
         CartridgeType.color := "Bleu"; CartridgeType.butane := 0.70;
         CartridgeType.propane := 0.30 |};
      {| CartridgeType.id := i + 1 + 1 + 1; CartridgeType.name := "Type D";
         CartridgeType.full_gas_mass := 600.0; CartridgeType.empty_mass := 300.0;
         CartridgeType.color := "Rouge"; CartridgeType.butane := 0.60;
         CartridgeType.propane := 0.40 |};
      {| CartridgeType.id := i + 1 + 1 + 1 + 1; CartridgeType.name := "Type E";
         CartridgeType.full_gas_mass := 550.0; CartridgeType.empty_mass := 280.0;
         CartridgeType.color := "Bleu"; CartridgeType.butane := 0.70;
         CartridgeType.propane := 0.30 |} ]
    (i + 1 + 1 + 1 + 1 + 1) d.

Local Open Scope float_scope.

(** What the REAL columns of the store give back for the floats of a
    statement, in the order of the statement: the first refusal, if any. *)
Definition stored_all (d : database) (l : list float) : result (list float) :=
  traverse (stored d) l.

(** The rows of a table after an UPDATE: the rows left alone, then the new
    versions of the others. *)
Definition rewritten {R} (hit : R -> bool) (change : R -> R) (rows : list R) : list R :=
  filter (fun r => negb (hit r)) rows ++ map change (filter hit rows).

(** The new version of the type [r] that [update_cartridge_type] writes,
    with the reals as the columns give them back. *)
Definition retyped (name : string) (full_gas_mass empty_mass : float)
    (color : string) (butane propane : float)
    (r : CartridgeType.row) : CartridgeType.row :=
  {| CartridgeType.id := CartridgeType.id r;
     CartridgeType.name := name;
     CartridgeType.full_gas_mass := full_gas_mass;
     CartridgeType.empty_mass := empty_mass;
     CartridgeType.color := color;
     CartridgeType.butane := butane;
     CartridgeType.propane := propane |}.

(** The new version of the transaction [t] that [update_transaction]
    writes, with the reals as the columns give them back. *)
Definition edited (new_date : string)
    (new_measured_weight new_gas_mass new_missing_gas new_butane_to_add
     new_propane_to_add : float) (new_client_name : string)
    (t : Transaction.row) : Transaction.row :=
  {| Transaction.id := Transaction.id t;
     Transaction.date := new_date;
     Transaction.cartridge_type_id := Transaction.cartridge_type_id t;
     Transaction.color := Transaction.color t;
     Transaction.measured_weight := new_measured_weight;
     Transaction.gas_mass := new_gas_mass;
     Transaction.missing_gas := new_missing_gas;
     Transaction.butane_to_add := new_butane_to_add;
     Transaction.propane_to_add := new_propane_to_add;
     Transaction.client_name := Some new_client_name |}.

(** A store in which one transaction points at a type that is not in the
    catalog (any more), next to one whose type is there. *)
Definition dangling_transaction : Transaction.row :=
  {| Transaction.id := 1; Transaction.date := "2025-01-01 10:00:00";
     Transaction.cartridge_type_id := 1; Transaction.color := "Bleu";
     Transaction.measured_weight := 250; Transaction.gas_mass := 50;
     Transaction.missing_gas := 350; Transaction.butane_to_add := 245;
     Transaction.propane_to_add := 105; Transaction.client_name := Some "" |}.

Definition resolved_transaction : Transaction.row :=
  {| Transaction.id := 2; Transaction.date := "2025-01-02 10:00:00";
     Transaction.cartridge_type_id := 2; Transaction.color := "Rouge";
     Transaction.measured_weight := 300; Transaction.gas_mass := 50;
     Transaction.missing_gas := 450; Transaction.butane_to_add := 270;
     Transaction.propane_to_add := 180; Transaction.client_name := None |}.

Definition dangling_example : database :=
  {| cartridge_types :=
       [ {| CartridgeType.id := 2; CartridgeType.name := "Type B";
            CartridgeType.full_gas_mass := 500.0; CartridgeType.empty_mass := 250.0;
            CartridgeType.color := "Rouge"; CartridgeType.butane := 0.60;
            CartridgeType.propane := 0.40 |} ];
     cartridge_types_id_seq := 3;
     transactions := [dangling_transaction; resolved_transaction];
     transactions_id_seq := 3;
     foreign_key := false;
     float4 := single_precision |}.

(** The same store before the first type was deleted, with or without the
    FOREIGN KEY constraint. *)
Definition referenced_example (fk : bool) : database :=
  {| cartridge_types := scenario_type :: cartridge_types dangling_example;
     cartridge_types_id_seq := 3;
     transactions := [dangling_transaction; resolved_transaction];
     transactions_id_seq := 3;
     foreign_key := fk;
     float4 := single_precision |}.

Local Open Scope Z_scope.

(* ------------------------------------------------------------------ *)
(** * The program as a sequence of calls *)

Local Open Scope Z_scope.

(** The ids of the two tables. *)
Definition type_ids (d : database) : list Z :=
  map CartridgeType.id (cartridge_types d).

Definition transaction_ids (d : database) : list Z :=
  map Transaction.id (transactions d).

(** PRIMARY KEY and SERIAL: the ids of a table are distinct and below the
    next value of its sequence. *)
Definition keyed (d : database) : Prop :=
  NoDup (type_ids d)
  /\ (forall i, In i (type_ids d) -> i < cartridge_types_id_seq d)
  /\ NoDup (transaction_ids d)
  /\ (forall i, In i (transaction_ids d) -> i < transactions_id_seq d).

(** Every transaction refers to a cartridge type of the catalog. *)
Definition referential (d : database) : Prop :=
  forall t, In t (transactions d) ->
            In (Transaction.cartridge_type_id t) (type_ids d).

(** The calls the program makes on a connection: the functions of the
    catalog and of the ledger, and the two forms that write. *)
Inductive operation : Type :=
| Seed
| ListTypes
| AddType (name : string) (full_gas_mass empty_mass : float) (color : string)
    (butane propane : float)
| UpdateType (id : Z) (name : string) (full_gas_mass empty_mass : float)
    (color : string) (butane propane : float)
| DeleteType (type_id : Z)
| AddTransaction (cartridge_type_id : Z) (color : string)
    (measured_weight gas_mass missing_gas butane_to_add propane_to_add : float)
    (client_name : string)
| ListTransactions
| DeleteTransaction (transaction_id : Z)
| UpdateTransaction (transaction_id : Z) (new_date : string)
    (new_measured_weight new_gas_mass new_missing_gas new_butane_to_add
     new_propane_to_add : float) (new_client_name : string)
| Calculer (selected_type : CartridgeType.row) (client_name : string)
    (measured_weight : float)
| Ajouter (new_name : string) (new_full_gas_mass new_empty_mass : float)
    (new_color : string) (new_butane new_propane : float).

Definition perform (op : operation) : App unit :=
  match op with
  | Seed => add_default_cartridge_types
  | ListTypes => (_ <- get_cartridge_types ;; ret tt)%app
  | AddType n f e c b p => add_cartridge_type n f e c b p
  | UpdateType i n f e c b p => update_cartridge_type i n f e c b p
  | DeleteType i => delete_cartridge_type i
  | AddTransaction i c w g m b p n => add_transaction i c w g m b p n
  | ListTransactions => (_ <- get_transactions ;; ret tt)%app
  | DeleteTransaction i => delete_transaction i
  | UpdateTransaction i d w g m b p n => update_transaction i d w g m b p n
  | Calculer t n w => calculer_et_enregistrer t n w
  | Ajouter n f e c b p => ajouter n f e c b p
  end.

(** A call on a new connection, as each run of [main] makes it, and a
    sequence of such calls, each with the time of its run. *)
Definition step (d : database) (call : operation * string) : database :=
  committed (perform (fst call)) d (snd call).

Definition history_of (calls : list (operation * string)) (d : database) : database :=
  fold_left step calls d.

(** What a call can do to the committed store: nothing, seed an empty
    catalog, add a type under the sequence's id, rewrite the types or the
    transactions of one id without touching their keys, or delete those of
    one id. *)
Inductive change (d : database) : database -> Prop :=
| Unchanged : change d d
| Seeded : cartridge_types d = [] -> change d (seeded d)
| TypeAdded r :
    CartridgeType.id r = cartridge_types_id_seq d ->
    change d (with_cartridge_types (cartridge_types d ++ [r])
                (cartridge_types_id_seq d + 1) d)
| TypeRewritten i g :
    (forall r, CartridgeType.id (g r) = CartridgeType.id r) ->
    change d (with_cartridge_types
                (rewritten (fun r => CartridgeType.id r =? i) g (cartridge_types d))
                (cartridge_types_id_seq d) d)
| TypeDeleted i :
    existsb (fun ct => (CartridgeType.id ct =? i) && referenced d ct)
      (cartridge_types d) = false ->
    change d (with_cartridge_types
                (filter (fun ct => negb (CartridgeType.id ct =? i)) (cartridge_types d))
                (cartridge_types_id_seq d) d)
| TransactionRewritten i g :
    (forall t, Transaction.id (g t) = Transaction.id t) ->
    (forall t, Transaction.cartridge_type_id (g t) = Transaction.cartridge_type_id t) ->
    change d (with_transactions
                (rewritten (fun t => Transaction.id t =? i) g (transactions d))
                (transactions_id_seq d) d)
| TransactionDeleted i :
    change d (with_transactions
                (filter (fun t => negb (Transaction.id t =? i)) (transactions d))
                (transactions_id_seq d) d).


(** The order of the history. *)
Definition newer_first (a b : History.row) : Prop :=
  String.leb (History.Date b) (History.Date a) = true.


(** [df_types[df_types['name'] == selected_type_name].iloc[0]]: the first row
    with the selected name; [iloc] raises on an empty frame. *)
Definition selected_row (df_types : list CartridgeType.row)
    (selected_type_name : string) : result CartridgeType.row :=
  match filter (fun r => String.eqb (CartridgeType.name r) selected_type_name)
          df_types with
  | [] => throw (IndexError "single positional indexer is out-of-bounds")
  | r :: _ => ok r
  end.

(** The page "Transaction" of [main], from [df_types = get_cartridge_types(conn)]
    on; the inputs are what the widgets return: the option selected, the
    client name, the weight and whether the button was pressed. *)
Definition nouvelle_transaction (selected_type_name client_name : string)
    (measured_weight : float) (button : bool) : App unit :=
  (df_types <- get_cartridge_types ;;
   match df_types with
   | [] =>
       render (st_error "Aucun type de cartouche disponible. Veuillez ajouter un type dans la section Configuration.")
   | _ :: _ =>
       match selected_row df_types selected_type_name with
       | inl e => raise e
       | inr selected_type =>
           render (st_write [Text "Type choisi: **";
                             Text (CartridgeType.name selected_type);
                             Text "** (Couleur: ";
                             Text (CartridgeType.color selected_type); Text ")"]) ;;
           if button
           then calculer_et_enregistrer selected_type client_name measured_weight
           else ret tt
       end
   end)%app.


Local Open Scope float_scope.

(** A second type under the name of the first seed type. *)
Definition namesake_type : CartridgeType.row :=
  {| CartridgeType.id := 6; CartridgeType.name := "Type A";
     CartridgeType.full_gas_mass := 230; CartridgeType.empty_mass := 100;
     CartridgeType.color := "Rouge"; CartridgeType.butane := 0.60;
     CartridgeType.propane := 0.40 |}.

Definition no_type_message : element :=
  st_error "Aucun type de cartouche disponible. Veuillez ajouter un type dans la section Configuration.".


(** Neither infinite nor NaN. *)
Definition finite (x : float) : bool := (neg_infinity <? x) && (x <? infinity).

(** The number a float stands for; 0 for the infinities and NaN. *)
Definition SF2R (x : spec_float) : R :=
  match x with
  | S754_finite s m e => (IZR (cond_Zopp s (Z.pos m)) * powerRZ 2 e)%R
  | _ => 0%R
  end.

Definition number (x : float) : R := SF2R (Prim2SF x).


Local Open Scope Z_scope.

(* ------------------------------------------------------------------ *)
(** * Binary64 facts: the sign of a difference

    The guard of the fill tests [measured_weight - empty_mass < 0]; the
    specification speaks of [measured_weight < empty_mass].  The two agree
    for all binary64 values: a difference of finite numbers is rounded, but
    it keeps the sign of the exact difference and never rounds to zero. *)

Section Binary64.

Lemma digits2_pos_bounds (p : positive) :
  2 ^ (Z.pos (digits2_pos p) - 1) <= Z.pos p < 2 ^ Z.pos (digits2_pos p).
Proof.
  induction p as [p IH|p IH|]; simpl digits2_pos.
  - rewrite Pos2Z.inj_succ, (Pos2Z.inj_xI p).
    replace (Z.succ (Z.pos (digits2_pos p)) - 1) with (Z.succ (Z.pos (digits2_pos p) - 1)) by lia.
    rewrite !Z.pow_succ_r by lia.
    revert IH. generalize (2 ^ (Z.pos (digits2_pos p) - 1)) (2 ^ Z.pos (digits2_pos p)). intros; lia.
  - rewrite Pos2Z.inj_succ, (Pos2Z.inj_xO p).
    replace (Z.succ (Z.pos (digits2_pos p)) - 1) with (Z.succ (Z.pos (digits2_pos p) - 1)) by lia.
    rewrite !Z.pow_succ_r by lia.
    revert IH. generalize (2 ^ (Z.pos (digits2_pos p) - 1)) (2 ^ Z.pos (digits2_pos p)). intros; lia.
  - simpl. lia.
Qed.

Lemma digits2_pos_lower (p : positive) : 2 ^ (Z.pos (digits2_pos p) - 1) <= Z.pos p.
Proof. apply digits2_pos_bounds. Qed.

Lemma digits2_pos_upper (p : positive) : Z.pos p < 2 ^ Z.pos (digits2_pos p).
Proof. apply digits2_pos_bounds. Qed.

Lemma iter_xO (d m : positive) : Z.pos (Pos.iter xO m d) = Z.pos m * 2 ^ Z.pos d.
Proof.
  revert m. induction d using Pos.peano_ind; intro m.
  - simpl. lia.
  - rewrite Pos.iter_succ, Pos2Z.inj_succ, Z.pow_succ_r by lia.
    rewrite Pos2Z.inj_xO, IHd. ring.
Qed.

Lemma shl_align_value (m : positive) (e e' : Z) :
  e' <= e -> Z.pos (fst (shl_align m e e')) = Z.pos m * 2 ^ (e - e').
Proof.
  intro H. unfold shl_align.
  destruct (e' - e) as [|d|d] eqn:E; try lia.
  - replace (e - e') with 0 by lia. rewrite Z.pow_0_r, Z.mul_1_r. reflexivity.
  - replace (e - e') with (Z.pos d) by lia. apply iter_xO.
Qed.

Lemma shl_align_exponent (m : positive) (e e' : Z) :
  snd (shl_align m e e') = Z.min e e'.
Proof.
  unfold shl_align. destruct (e' - e) eqn:E; simpl; lia.
Qed.

Lemma bounded_range (m : positive) (e : Z) :
  bounded prec emax m e = true ->
  emin <= e /\ Z.pos (digits2_pos m) <= prec /\
  (emin < e -> Z.pos (digits2_pos m) = prec).
Proof.
  unfold bounded, canonical_mantissa, fexp. intro H.
  apply andb_true_iff in H. destruct H as [H _]. apply Z.eqb_eq in H. lia.
Qed.

Lemma shr_1_m (mrs : shr_record) :
  0 <= shr_m mrs -> shr_m (shr_1 mrs) = shr_m mrs / 2.
Proof.
  destruct mrs as [m r s]. simpl. intro H.
  destruct m as [|p|p]; try lia.
  - reflexivity.
  - destruct p; simpl shr_m.
    + rewrite (Pos2Z.inj_xI p). apply Z.div_unique with 1; lia.
    + rewrite (Pos2Z.inj_xO p). apply Z.div_unique with 0; lia.
    + reflexivity.
Qed.

Lemma pow2_xO (p : positive) : 2 ^ Z.pos p~0 = 2 ^ Z.pos p * 2 ^ Z.pos p.
Proof. rewrite <- Z.pow_add_r by lia. f_equal. lia. Qed.

Lemma pow2_xI (p : positive) : 2 ^ Z.pos p~1 = 2 * (2 ^ Z.pos p * 2 ^ Z.pos p).
Proof.
  rewrite <- Z.pow_add_r, <- Z.pow_succ_r by lia. f_equal. lia.
Qed.

Lemma iter_shr_1_m (p : positive) (mrs : shr_record) :
  0 <= shr_m mrs -> shr_m (iter_pos shr_1 p mrs) = shr_m mrs / 2 ^ Z.pos p.
Proof.
  revert mrs. induction p as [p IHp|p IHp|]; intros mrs H; simpl iter_pos.
  - assert (H1 : 0 <= shr_m (shr_1 mrs)).
    { rewrite shr_1_m by easy. apply Z.div_pos; lia. }
    assert (H2 : 0 <= shr_m (iter_pos shr_1 p (shr_1 mrs))).
    { rewrite IHp by easy. apply Z.div_pos; lia. }
    rewrite IHp, IHp, shr_1_m by easy.
    rewrite !Z.div_div by lia.
    rewrite pow2_xI. f_equal; ring.
  - assert (H2 : 0 <= shr_m (iter_pos shr_1 p mrs)).
    { rewrite IHp by easy. apply Z.div_pos; lia. }
    rewrite IHp, IHp by easy.
    rewrite !Z.div_div by lia.
    rewrite pow2_xO. reflexivity.
  - rewrite shr_1_m by easy. reflexivity.
Qed.

Lemma shr_fexp_positive (m e : Z) (l : location) :
  0 < m -> emin <= e ->
  0 < shr_m (fst (shr_fexp prec emax m e l)) /\
  emin <= snd (shr_fexp prec emax m e l).
Proof.
  intros Hm He. unfold shr_fexp, shr.
  assert (Hr : shr_m (shr_record_of_loc m l) = m).
  { destruct l as [|[]]; reflexivity. }
  destruct m as [|p|p]; try lia. simpl Zdigits2.
  destruct (fexp prec emax (Z.pos (digits2_pos p) + e) - e) as [|n|n] eqn:E; simpl fst; simpl snd.
  - rewrite Hr. lia.
  - unfold fexp in E. assert (Z.pos n = Z.pos (digits2_pos p) - prec) by lia.
    split; [|lia].
    rewrite iter_shr_1_m by (rewrite Hr; lia). rewrite Hr.
    apply Z.div_str_pos. split; [lia|].
    pose proof (digits2_pos_lower p).
    apply Z.le_trans with (2 ^ (Z.pos (digits2_pos p) - 1)); [|easy].
    apply Z.pow_le_mono_r; [lia|]. unfold prec in *. lia.
  - rewrite Hr. lia.
Qed.

Lemma round_nearest_even_positive (m : Z) (l : location) :
  0 < m -> 0 < round_nearest_even m l.
Proof.
  intro H. unfold round_nearest_even.
  destruct l as [|[]]; try lia. destruct (Z.even m); lia.
Qed.

Lemma binary_round_aux_sign (s : bool) (m e : Z) (l : location) :
  0 < m -> emin <= e ->
  SFltb (binary_round_aux prec emax s m e l) (S754_zero false) = s.
Proof.
  intros Hm He. unfold binary_round_aux.
  pose proof (shr_fexp_positive m e l Hm He) as [H1 H2].
  destruct (shr_fexp prec emax m e l) as [mrs' e']. simpl in H1, H2.
  pose proof (round_nearest_even_positive (shr_m mrs') (loc_of_shr_record mrs') H1) as H3.
  pose proof (shr_fexp_positive _ e' loc_Exact H3 H2) as [H4 _].
  destruct (shr_fexp prec emax _ e' loc_Exact) as [mrs'' e'']. simpl in H4.
  destruct (shr_m mrs''); try lia.
  destruct (e'' <=? emax - prec); destruct s; reflexivity.
Qed.

Lemma binary_normalize_sign (m e : Z) :
  emin <= e ->
  SFltb (binary_normalize prec emax m e false) (S754_zero false) = (m <? 0).
Proof.
  intro He. destruct m as [|p|p]; simpl binary_normalize.
  - reflexivity.
  - unfold binary_round.
    pose proof (shl_align_exponent p e (fexp prec emax (Z.pos (digits2_pos p) + e))) as Hs.
    destruct (shl_align p e _) as [mz ez]. simpl in Hs.
    rewrite binary_round_aux_sign; [reflexivity|lia|].
    unfold fexp in Hs. lia.
  - unfold binary_round.
    pose proof (shl_align_exponent p e (fexp prec emax (Z.pos (digits2_pos p) + e))) as Hs.
    destruct (shl_align p e _) as [mz ez]. simpl in Hs.
    rewrite binary_round_aux_sign; [reflexivity|lia|].
    unfold fexp in Hs. lia.
Qed.

Lemma compare_aligned (m1 m2 : positive) (e1 e2 : Z) :
  bounded prec emax m1 e1 = true -> bounded prec emax m2 e2 = true ->
  match e1 ?= e2 with
  | Lt => Lt
  | Gt => Gt
  | Eq => Pos.compare_cont Eq m1 m2
  end = (Z.pos m1 * 2 ^ (e1 - Z.min e1 e2) ?= Z.pos m2 * 2 ^ (e2 - Z.min e1 e2)).
Proof.
  intros B1 B2.
  apply bounded_range in B1. apply bounded_range in B2.
  destruct B1 as (L1 & D1 & N1). destruct B2 as (L2 & D2 & N2).
  pose proof (digits2_pos_lower m1). pose proof (digits2_pos_upper m1).
  pose proof (digits2_pos_lower m2). pose proof (digits2_pos_upper m2).
  destruct (Z.compare_spec e1 e2) as [E|E|E].
  - subst e2. rewrite Z.min_id, Z.sub_diag. simpl. rewrite !Pos.mul_1_r.
    reflexivity.
  - rewrite Z.min_l by lia. rewrite Z.sub_diag, Z.mul_1_r.
    symmetry. apply Z.compare_lt_iff.
    rewrite N2 in * by lia.
    assert (Z.pos m1 < 2 ^ prec).
    { eapply Z.lt_le_trans; [eassumption|]. apply Z.pow_le_mono_r; lia. }
    assert (2 ^ 1 <= 2 ^ (e2 - e1)) by (apply Z.pow_le_mono_r; lia).
    assert (2 ^ prec = 2 * 2 ^ (prec - 1)).
    { rewrite <- Z.pow_succ_r by (unfold prec; lia). f_equal; lia. }
    nia.
  - rewrite Z.min_r by lia. rewrite Z.sub_diag, Z.mul_1_r.
    symmetry. apply Z.compare_gt_iff.
    rewrite N1 in * by lia.
    assert (Z.pos m2 < 2 ^ prec).
    { eapply Z.lt_le_trans; [eassumption|]. apply Z.pow_le_mono_r; lia. }
    assert (2 ^ 1 <= 2 ^ (e1 - e2)) by (apply Z.pow_le_mono_r; lia).
    assert (2 ^ prec = 2 * 2 ^ (prec - 1)).
    { rewrite <- Z.pow_succ_r by (unfold prec; lia). f_equal; lia. }
    nia.
Qed.

Lemma SFsub_sign (x y : spec_float) :
  valid_binary x = true -> valid_binary y = true ->
  SFltb (SF64sub x y) (S754_zero false) = SFltb x y.
Proof.
  intros Vx Vy.
  destruct x as [sx|sx| |sx mx ex], y as [sy|sy| |sy my ey];
    try reflexivity;
    try (destruct sx; reflexivity);
    try (destruct sy; reflexivity);
    try (destruct sx, sy; reflexivity).
  simpl in Vx, Vy.
  unfold SF64sub, SFsub.
  pose proof (bounded_range _ _ Vx) as (Lx & _). pose proof (bounded_range _ _ Vy) as (Ly & _).
  rewrite binary_normalize_sign by lia.
  rewrite !shl_align_value by lia.
  pose proof (compare_aligned mx my ex ey Vx Vy) as C.
  set (X := Z.pos mx * 2 ^ (ex - Z.min ex ey)) in *.
  set (Y := Z.pos my * 2 ^ (ey - Z.min ex ey)) in *.
  assert (0 < X) by (unfold X; apply Z.mul_pos_pos; [lia|apply Z.pow_pos_nonneg; lia]).
  assert (0 < Y) by (unfold Y; apply Z.mul_pos_pos; [lia|apply Z.pow_pos_nonneg; lia]).
  unfold SFltb, SFcompare.
  destruct sx, sy; simpl cond_Zopp.
  - revert C. destruct (ex ?= ey), (Z.compare_spec X Y); intro C;
      try discriminate C; rewrite ?C; simpl; lia.
  - destruct (Z.ltb_spec (- X - Y) 0); [reflexivity|lia].
  - destruct (Z.ltb_spec (X - - Y) 0); [lia|reflexivity].
  - revert C. destruct (ex ?= ey), (Z.compare_spec X Y); intro C;
      try discriminate C; rewrite ?C; simpl; lia.
Qed.

Lemma SFcompare_antisym (x y : spec_float) :
  SFcompare y x = option_map CompOpp (SFcompare x y).
Proof.
  destruct x as [sx|sx| |sx mx ex], y as [sy|sy| |sy my ey];
    try reflexivity;
    try (destruct sx; reflexivity);
    try (destruct sy; reflexivity);
    try (destruct sx, sy; reflexivity).
  unfold SFcompare. destruct sx, sy; try reflexivity; simpl option_map; f_equal;
    rewrite (Z.compare_antisym ex ey);
    destruct (ex ?= ey); simpl; try reflexivity;
    rewrite (Pos.compare_cont_antisym mx my Eq); simpl;
    destruct (Pos.compare_cont Eq mx my); reflexivity.
Qed.

Lemma sub_ltb_zero (x y : float) : (x - y <? 0)%float = (x <? y)%float.
Proof.
  rewrite !ltb_spec, sub_spec.
  change (Prim2SF 0) with (S754_zero false).
  apply SFsub_sign; apply Prim2SF_valid.
Qed.

Lemma leb_not_ltb (x y : float) : (y <=? x)%float = true -> (x <? y)%float = false.
Proof.
  rewrite leb_spec, ltb_spec. unfold SFleb, SFltb.
  rewrite (SFcompare_antisym (Prim2SF y) (Prim2SF x)).
  destruct (SFcompare (Prim2SF y) (Prim2SF x)) as [[]|]; simpl; congruence.
Qed.

End Binary64.

(* ------------------------------------------------------------------ *)
(** * The fill computation *)

Local Open Scope float_scope.

Lemma compute_fill_accepts (t : CartridgeType.row) (w : float) :
  (CartridgeType.empty_mass t <=? w) = true ->
  compute_fill t w =
  Some {| gas_mass := w - CartridgeType.empty_mass t;
          missing_gas :=
            max0 (CartridgeType.full_gas_mass t - (w - CartridgeType.empty_mass t));
          butane_to_add :=
            max0 (CartridgeType.full_gas_mass t - (w - CartridgeType.empty_mass t))
            * CartridgeType.butane t;
          propane_to_add :=
            max0 (CartridgeType.full_gas_mass t - (w - CartridgeType.empty_mass t))
            * CartridgeType.propane t |}.
Proof.
  intro H. unfold compute_fill.
  rewrite sub_ltb_zero, (leb_not_ltb _ _ H). reflexivity.
Qed.

Lemma compute_fill_rejects (t : CartridgeType.row) (w : float) :
  (w <? CartridgeType.empty_mass t) = true -> compute_fill t w = None.
Proof.
  intro H. unfold compute_fill. rewrite sub_ltb_zero, H. reflexivity.
Qed.

Lemma scenario_250 :
  compute_fill scenario_type 250 =
  Some {| gas_mass := 50; missing_gas := 350;
          butane_to_add := 244.99999999999997; propane_to_add := 105 |}.
Proof. reflexivity. Qed.

(** C2 (as amended).  For every cartridge type and every measured weight
    with [empty_mass <= measured_weight], the fill computation succeeds with
    [gas_mass = measured_weight - empty_mass] and
    [missing_gas = max(0, full_gas_mass - gas_mass)]; for the type
    (400, 200, 0.70, 0.30) and the weight 250 it gives gas_mass 50,
    missing_gas 350, propane_to_add 105.0 and butane_to_add
    244.99999999999997, the binary64 product of 350 and 0.70. *)
Theorem compute_fill_valid (t : CartridgeType.row) (w : float) :
  (CartridgeType.empty_mass t <=? w) = true ->
  (exists f, compute_fill t w = Some f
             /\ gas_mass f = w - CartridgeType.empty_mass t
             /\ missing_gas f = max0 (CartridgeType.full_gas_mass t - gas_mass f))
  /\ compute_fill scenario_type 250 =
     Some {| gas_mass := 50; missing_gas := 350;
             butane_to_add := 244.99999999999997; propane_to_add := 105 |}.
Proof.
  intro H. split; [|exact scenario_250].
  rewrite (compute_fill_accepts t w H). eexists. split; [reflexivity|].
  split; reflexivity.
Qed.

Lemma compute_fill_valid_witness :
  (CartridgeType.empty_mass scenario_type <=? 650) = true
  /\ exists f, compute_fill scenario_type 650 = Some f
               /\ gas_mass f = 450 /\ missing_gas f = 0.
Proof.
  split; [reflexivity|].
  destruct (compute_fill_valid scenario_type 650 eq_refl) as [(f & Hf & Hg & Hm) _].
  exists f. split; [exact Hf|]. split.
  - rewrite Hg. reflexivity.
  - rewrite Hm, Hg. reflexivity.
Defined.

(** C2, as stated, fails on the scenario: the computed butane_to_add is not
    245.0. *)
Lemma scenario_250_butane_is_not_245 :
  compute_fill scenario_type 250 <>
  Some {| gas_mass := 50; missing_gas := 350;
          butane_to_add := 245.0; propane_to_add := 105.0 |}.
Proof.
  intro H.
  apply (f_equal (fun r => match r with
                           | Some f => butane_to_add f =? 245.0
                           | None => false
                           end)) in H.
  vm_compute in H. discriminate H.
Qed.

(** C8, as stated, fails: for the first seed type, whose ratios add up to
    1.0, and the measured weight 201 the fill is valid, missing_gas is 399
    and so is its product by the sum of the ratios, while the two amounts
    add up to 398.99999999999994. *)
Lemma amounts_do_not_add_up_at_201 :
  (CartridgeType.empty_mass scenario_type <=? 201) = true
  /\ CartridgeType.butane scenario_type + CartridgeType.propane scenario_type = 1
  /\ compute_fill scenario_type 201
     = Some {| gas_mass := 1; missing_gas := 399;
               butane_to_add := 279.29999999999995;
               propane_to_add := 119.69999999999999 |}
  /\ 279.29999999999995 + 119.69999999999999 = 398.99999999999994
  /\ 399 * (CartridgeType.butane scenario_type + CartridgeType.propane scenario_type)
     = 399
  /\ (398.99999999999994 =? 399) = false
  /\ (forall f, compute_fill scenario_type 201 = Some f ->
        butane_to_add f + propane_to_add f
        <> missing_gas f
           * (CartridgeType.butane scenario_type + CartridgeType.propane scenario_type)).
Proof.
  repeat (split; [reflexivity|]).
  intros f Hf E. injection Hf as <-.
  apply (f_equal (fun x => x =? 399)) in E. vm_compute in E. discriminate E.
Qed.

(* ------------------------------------------------------------------ *)
(** * The page "Transaction" *)

(** C3.  When the measured weight is below the type's empty mass, the fill
    is rejected with the error message of the form; no exception escapes,
    nothing is written in the session and nothing is committed, so both
    tables keep their rows. *)
Theorem fill_below_empty_mass_is_rejected
    (d : database) (now : string) (t : CartridgeType.row)
    (client_name : string) (w : float) :
  (w <? CartridgeType.empty_mass t) = true ->
  compute_fill t w = None
  /\ outcome (calculer_et_enregistrer t client_name w) d now = inr tt
  /\ rendered (calculer_et_enregistrer t client_name w) d now
     = [st_error "Le poids mesuré est inférieur à la masse du contenant vide."]
  /\ seen (calculer_et_enregistrer t client_name w) d now = d
  /\ committed (calculer_et_enregistrer t client_name w) d now = d
  /\ List.length (transactions (committed (calculer_et_enregistrer t client_name w) d now))
     = List.length (transactions d)
  /\ List.length (cartridge_types (committed (calculer_et_enregistrer t client_name w) d now))
     = List.length (cartridge_types d).
Proof.
  intro H. pose proof (compute_fill_rejects t w H) as E.
  split; [exact E|].
  unfold outcome, rendered, seen, committed, calculer_et_enregistrer.
  rewrite E. simpl. repeat split; reflexivity.
Qed.

Lemma fill_below_empty_mass_is_rejected_witness :
  (150 <? CartridgeType.empty_mass scenario_type) = true
  /\ committed (calculer_et_enregistrer scenario_type "" 150) empty_database "" = empty_database.
Proof.
  split; [reflexivity|].
  apply (fill_below_empty_mass_is_rejected empty_database "" scenario_type "" 150 eq_refl).
Defined.

(** C1: what the code does.  For every type and every measured weight with
    [empty_mass <= measured_weight], the button "Calculer et Enregistrer"
    shows the figures and then raises TypeError in [add_transaction], whose
    statement has six placeholders for nine arguments; no row is written
    and nothing is committed, so the history lists what it listed before. *)
Theorem calculer_et_enregistrer_raises
    (d : database) (now : string) (t : CartridgeType.row)
    (client_name : string) (w : float) :
  (CartridgeType.empty_mass t <=? w) = true ->
  outcome (calculer_et_enregistrer t client_name w) d now
  = inl (TypeError "not all arguments converted during string formatting")
  /\ seen (calculer_et_enregistrer t client_name w) d now = d
  /\ committed (calculer_et_enregistrer t client_name w) d now = d
  /\ outcome get_transactions
       (committed (calculer_et_enregistrer t client_name w) d now) now
     = outcome get_transactions d now.
Proof.
  intro H.
  assert (E : seen (calculer_et_enregistrer t client_name w) d now = d
              /\ committed (calculer_et_enregistrer t client_name w) d now = d
              /\ outcome (calculer_et_enregistrer t client_name w) d now
                 = inl (TypeError "not all arguments converted during string formatting")).
  { unfold outcome, seen, committed, calculer_et_enregistrer.
    rewrite (compute_fill_accepts t w H). simpl. repeat split; reflexivity. }
  destruct E as (E1 & E2 & E3).
  split; [exact E3|]. split; [exact E1|]. split; [exact E2|].
  rewrite E2. reflexivity.
Qed.

Lemma calculer_et_enregistrer_raises_witness :
  (CartridgeType.empty_mass scenario_type <=? 250) = true
  /\ outcome (calculer_et_enregistrer scenario_type "" 250)
       (startup "2025-01-01 00:00:00" empty_database) "2025-01-01 00:00:05"
     = inl (TypeError "not all arguments converted during string formatting").
Proof.
  split; [reflexivity|].
  apply (calculer_et_enregistrer_raises
           (startup "2025-01-01 00:00:00" empty_database) "2025-01-01 00:00:05"
           scenario_type "" 250 eq_refl).
Defined.

(** With as many placeholders as arguments the same INSERT would have
    written the row: the statement, not the store, is what fails.  The row
    would hold the butane of the scenario as REAL gives it back, 245. *)
Lemma insert_transaction_with_nine_placeholders :
  let insert :=
    execute
      (INSERT_INTO Transactions
         ["date"; "cartridge_type_id"; "color"; "measured_weight"; "gas_mass";
          "missing_gas"; "butane_to_add"; "propane_to_add"; "client_name"] 9)
      [VStr "2025-01-01 00:00:05"; VInt 1; VStr "Bleu"; VFloat 250;
       VFloat 50; VFloat 350; VFloat 244.99999999999997;
       VFloat 105; VStr ""] in
  outcome insert (startup "2025-01-01 00:00:00" empty_database) "" = inr tt
  /\ map Transaction.butane_to_add
       (transactions (seen insert (startup "2025-01-01 00:00:00" empty_database) ""))
     = [245].
Proof. split; vm_compute; reflexivity. Qed.

(* ------------------------------------------------------------------ *)
(** * Columns of type REAL *)

Lemma real_short (server : float -> result float) (x : float) :
  short_decimal x = true -> real server x = ok x.
Proof. intro H. unfold real. rewrite H. reflexivity. Qed.

(** The reals of the seed table are short decimals: every server gives
    them back as they were written. *)
Lemma seed_reals_are_kept (d : database) :
  map (stored d) [400; 200; 0.70; 0.30; 500; 250; 0.60; 0.40; 450; 220; 600; 300;
                  550; 280]
  = map ok [400; 200; 0.70; 0.30; 500; 250; 0.60; 0.40; 450; 220; 600; 300;
            550; 280].
Proof.
  unfold stored. cbn [map].
  rewrite !real_short by (vm_compute; reflexivity). reflexivity.
Qed.

(** On a server that prints the shortest digits, the butane of the scenario
    is read back as 245.0 and 1234567.89 as 1234567.9; 1e39 is refused, and
    so is 1e-50; the short decimals go through that server unchanged as
    well. *)
Lemma reals_read_back :
  single_precision 244.99999999999997 = ok 245
  /\ single_precision 1234567.89 = ok 1234567.9
  /\ single_precision 1e39 = throw (DataError "value out of range for type real")
  /\ single_precision 1e-50 = throw (DataError "value out of range for type real")
  /\ map single_precision [400; 200; 0.70; 0.30; 0.60; 0.40; 250; 201; 1234.56]
     = map ok [400; 200; 0.70; 0.30; 0.60; 0.40; 250; 201; 1234.56]
  /\ forallb short_decimal [400; 200; 0.70; 0.30; 0.60; 0.40; 250; 201; 1234.56] = true
  /\ existsb short_decimal [244.99999999999997; 1234567.89; 1e39; 1e-50; -0] = false.
Proof. repeat split; vm_compute; reflexivity. Qed.

(** An update with a real out of range raises and commits nothing, whether
    or not a row has the id. *)
Lemma update_with_a_real_out_of_range :
  outcome (update_cartridge_type 1 "Type X" 1e39 200 "Bleu" 0.70 0.30)
    (startup "" empty_database) ""
  = inl (DataError "value out of range for type real")
  /\ committed (update_cartridge_type 1 "Type X" 1e39 200 "Bleu" 0.70 0.30)
       (startup "" empty_database) ""
     = startup "" empty_database
  /\ outcome (update_cartridge_type 6 "Type X" 1e39 200 "Bleu" 0.70 0.30)
       (startup "" empty_database) ""
     = inl (DataError "value out of range for type real").
Proof. repeat split; vm_compute; reflexivity. Qed.

(** An update moves the row it rewrites behind the others. *)
Lemma update_moves_the_row :
  map CartridgeType.id
    (cartridge_types
       (committed (update_cartridge_type 2 "Type B" 500 250 "Rouge" 0.60 0.40)
          (startup "" empty_database) ""))
  = [1; 3; 4; 5; 2]%Z.
Proof. vm_compute. reflexivity. Qed.

(* ------------------------------------------------------------------ *)
(** * Seeding the catalog *)

Local Open Scope Z_scope.

Lemma existsb_fresh (i : Z) (l : list CartridgeType.row) :
  fresh_id i l -> existsb (fun x => (CartridgeType.id x =? i)%Z) l = false.
Proof.
  intro H. induction l as [|r l IH]; [reflexivity|]. simpl.
  rewrite IH by (intros x Hx; apply H; right; exact Hx).
  destruct (Z.eqb_spec (CartridgeType.id r) i) as [E|E]; [|reflexivity].
  exfalso. apply (H r); [left; reflexivity|exact E].
Qed.

Lemma execute_insert_cartridge_type (w : world) n f e c b p f' e' b' p' :
  stored (session w) f = ok f' -> stored (session w) e = ok e' ->
  stored (session w) b = ok b' -> stored (session w) p = ok p' ->
  fresh_id (cartridge_types_id_seq (session w)) (cartridge_types (session w)) ->
  execute
    (INSERT_INTO Cartridge_types
       ["name"; "full_gas_mass"; "empty_mass"; "color"; "butane"; "propane"] 6)
    [VStr n; VFloat f; VFloat e; VStr c; VFloat b; VFloat p] w
  = (inr tt,
     {| session :=
          with_cartridge_types
            (cartridge_types (session w)
             ++ [{| CartridgeType.id := cartridge_types_id_seq (session w);
                    CartridgeType.name := n; CartridgeType.full_gas_mass := f';
                    CartridgeType.empty_mass := e'; CartridgeType.color := c;
                    CartridgeType.butane := b'; CartridgeType.propane := p' |}])
            (cartridge_types_id_seq (session w) + 1) (session w);
        durable := durable w; page := page w; clock := clock w |}).
Proof.
  unfold stored. intros Hf He Hb Hp H. unfold execute. cbn -[real].
  rewrite Hf. cbn -[real]. rewrite He. cbn -[real]. rewrite Hb. cbn -[real].
  rewrite Hp. cbn -[real].
  rewrite (existsb_fresh _ _ H). reflexivity.
Qed.

Ltac solve_fresh :=
  let r := fresh "r" in
  let Hr := fresh "Hr" in
  intros r Hr; simpl in Hr;
  repeat (destruct Hr as [Hr|Hr]; [subst r; simpl; lia|]);
  contradiction.

Lemma bind_run {A B} (m : App A) (k : A -> App B) (w w' : world) (a : A) :
  m w = (inr a, w') -> bind m k w = k a w'.
Proof. intro H. unfold bind. rewrite H. reflexivity. Qed.

Lemma add_default_on_empty (d : database) (now : string) :
  cartridge_types d = [] ->
  add_default_cartridge_types (get_connection d now)
  = (inr tt, {| session := seeded d; durable := seeded d; page := []; clock := now |}).
Proof.
  intro H. destruct d as [ct i tx j fk f4]. simpl in H. subst ct.
  unfold add_default_cartridge_types, get_connection, default_types, executemany.
  erewrite bind_run by reflexivity.
  cbn [session cartridge_types Datatypes.length Z.of_nat Z.eqb].
  erewrite bind_run.
  2:{ repeat (erewrite bind_run;
                [|apply execute_insert_cartridge_type;
                  [apply real_short; vm_compute; reflexivity ..|solve_fresh]]).
      reflexivity. }
  reflexivity.
Qed.

Lemma add_default_on_inhabited (d : database) (now : string) :
  cartridge_types d <> [] ->
  add_default_cartridge_types (get_connection d now) = (inr tt, get_connection d now).
Proof.
  intro H. unfold add_default_cartridge_types.
  erewrite bind_run by reflexivity.
  cbn [session get_connection].
  destruct (cartridge_types d) as [|r l]; [contradiction|].
  reflexivity.
Qed.

Lemma startup_on_empty (d : database) (now : string) :
  cartridge_types d = [] -> startup now d = seeded d.
Proof.
  intro H. unfold startup, committed. rewrite (add_default_on_empty d now H).
  reflexivity.
Qed.

Lemma startup_on_inhabited (d : database) (now : string) :
  cartridge_types d <> [] -> startup now d = d.
Proof.
  intro H. unfold startup, committed. rewrite (add_default_on_inhabited d now H).
  reflexivity.
Qed.

Lemma startups_on_empty (d : database) (now : string) (n : nat) :
  cartridge_types d = [] -> Nat.iter (S n) (startup now) d = seeded d.
Proof.
  intro H. induction n as [|n IH].
  - apply startup_on_empty, H.
  - change (startup now (Nat.iter (S n) (startup now) d) = seeded d).
    rewrite IH. apply startup_on_inhabited. discriminate.
Qed.

(** C5.  Seeding is idempotent: on a catalog with no entry it inserts the
    five default types, and any number of further starts leaves exactly
    these five rows; on a catalog that has an entry it inserts nothing and
    leaves the store as it is. *)
Theorem seeding_is_idempotent (d : database) (now : string) (n : nat) :
  cartridge_types d = [] ->
  outcome add_default_cartridge_types d now = inr tt
  /\ List.length (cartridge_types (startup now d)) = 5%nat
  /\ List.length (cartridge_types (Nat.iter (S n) (startup now) d)) = 5%nat
  /\ (forall d' : database,
         cartridge_types d' <> [] ->
         outcome add_default_cartridge_types d' now = inr tt
         /\ startup now d' = d').
Proof.
  intro H. split; [|split; [|split]].
  - unfold outcome. rewrite (add_default_on_empty d now H). reflexivity.
  - rewrite (startup_on_empty d now H). reflexivity.
  - rewrite (startups_on_empty d now n H). reflexivity.
  - intros d' H'. split.
    + unfold outcome. rewrite (add_default_on_inhabited d' now H'). reflexivity.
    + apply startup_on_inhabited, H'.
Qed.

Lemma seeding_is_idempotent_witness :
  cartridge_types empty_database = []
  /\ List.length (cartridge_types (Nat.iter 2 (startup "") empty_database)) = 5%nat.
Proof.
  split; [reflexivity|].
  apply (seeding_is_idempotent empty_database "" 1 eq_refl).
Defined.

Local Open Scope float_scope.

(** C6 (as amended).  The five rows inserted in an empty catalog carry the
    names, masses and ratios of the seed table, with the color labels
    "Bleu" (70/30) and "Rouge" (60/40). *)
Theorem seed_rows (d : database) (now : string) :
  cartridge_types d = [] ->
  map seed_values (cartridge_types (startup now d))
  = [ ("Type A", 400.0, 200.0, "Bleu", 0.70, 0.30);
      ("Type B", 500.0, 250.0, "Rouge", 0.60, 0.40);
      ("Type C", 450.0, 220.0, "Bleu", 0.70, 0.30);
      ("Type D", 600.0, 300.0, "Rouge", 0.60, 0.40);
      ("Type E", 550.0, 280.0, "Bleu", 0.70, 0.30) ].
Proof.
  intro H. rewrite (startup_on_empty d now H). reflexivity.
Qed.

Lemma seed_rows_witness :
  cartridge_types empty_database = []
  /\ map CartridgeType.color (cartridge_types (startup "" empty_database))
     = ["Bleu"; "Rouge"; "Bleu"; "Rouge"; "Bleu"].
Proof.
  split; [reflexivity|].
  pose proof (seed_rows empty_database "" eq_refl) as H.
  apply (f_equal (map (fun v : seed_row => let '(_, _, _, c, _, _) := v in c))) in H.
  rewrite map_map in H. exact H.
Defined.

(** C6, as stated, fails: the inserted rows are not those of the
    specification's table, whose color labels are "Blue" and "Red". *)
Lemma seed_rows_are_not_the_spec_table :
  map seed_values (cartridge_types (startup "" empty_database)) <> spec_seed_table.
Proof.
  intro H.
  apply (f_equal (map (fun v : seed_row => let '(_, _, _, c, _, _) := v in c))) in H.
  vm_compute in H. discriminate H.
Qed.

(* ------------------------------------------------------------------ *)
(** * The page "Configuration" *)



(** With a name the form inserts the type. *)
Lemma ajouter_with_a_name_inserts :
  rendered (ajouter "Type F" 700 350 "Bleu" 0.70 0.30) empty_database ""
  = [st_success "Nouveau type ajouté!"]
  /\ map seed_values
       (cartridge_types
          (committed (ajouter "Type F" 700 350 "Bleu" 0.70 0.30) empty_database ""))
     = [("Type F", 700, 350, "Bleu", 0.70, 0.30)].
Proof. repeat split; reflexivity. Qed.

(* ------------------------------------------------------------------ *)
(** * Updates *)

Local Open Scope Z_scope.

Lemma traverse_map {A B} (f : A -> result B) (g : A -> B) (l : list A) :
  (forall x, In x l -> f x = ok (g x)) -> traverse f l = ok (map g l).
Proof.
  induction l as [|x l IH]; intro H; [reflexivity|].
  simpl. rewrite (H x (or_introl eq_refl)). simpl.
  rewrite IH by (intros y Hy; apply H; right; exact Hy). reflexivity.
Qed.

Lemma with_cartridge_types_same (d : database) :
  with_cartridge_types (cartridge_types d) (cartridge_types_id_seq d) d = d.
Proof. destruct d; reflexivity. Qed.


(** Four floats in, four floats out, or the first refusal. *)
Lemma stored_all_four (d : database) (f e b p : float) :
  (exists x, stored_all d [f; e; b; p] = inl x)
  \/ (exists f' e' b' p', stored_all d [f; e; b; p] = ok [f'; e'; b'; p']).
Proof.
  unfold stored_all, traverse.
  destruct (stored d f) as [x|f']; [left; exists x; reflexivity|].
  destruct (stored d e) as [x|e']; [left; exists x; reflexivity|].
  destruct (stored d b) as [x|b']; [left; exists x; reflexivity|].
  destruct (stored d p) as [x|p']; [left; exists x; reflexivity|].
  right. exists f', e', b', p'. reflexivity.
Qed.

Lemma stored_all_five (d : database) (w g m b p : float) :
  (exists x, stored_all d [w; g; m; b; p] = inl x)
  \/ (exists w' g' m' b' p', stored_all d [w; g; m; b; p] = ok [w'; g'; m'; b'; p']).
Proof.
  unfold stored_all, traverse.
  destruct (stored d w) as [x|w']; [left; exists x; reflexivity|].
  destruct (stored d g) as [x|g']; [left; exists x; reflexivity|].
  destruct (stored d m) as [x|m']; [left; exists x; reflexivity|].
  destruct (stored d b) as [x|b']; [left; exists x; reflexivity|].
  destruct (stored d p) as [x|p']; [left; exists x; reflexivity|].
  right. exists w', g', m', b', p'. reflexivity.
Qed.

Lemma update_cartridge_type_runs (d : database) (now : string) (id : Z)
    (name : string) (f e : float) (color : string) (b p f' e' b' p' : float) :
  stored_all d [f; e; b; p] = ok [f'; e'; b'; p'] ->
  update_cartridge_type id name f e color b p (get_connection d now)
  = (inr tt,
     get_connection
       (with_cartridge_types
          (rewritten (fun r => CartridgeType.id r =? id)
             (retyped name f' e' color b' p') (cartridge_types d))
          (cartridge_types_id_seq d) d) now).
Proof.
  unfold stored_all, traverse, stored. intro H.
  unfold update_cartridge_type, bind, execute, commit.
  cbn -[real filter] in *.
  destruct (real (float4 d) f) as [x|f0]; [discriminate H|].
  destruct (real (float4 d) e) as [x|e0]; [discriminate H|].
  destruct (real (float4 d) b) as [x|b0]; [discriminate H|].
  destruct (real (float4 d) p) as [x|p0]; [discriminate H|].
  cbn -[filter] in *. injection H as -> -> -> ->.
  rewrite (traverse_map _ (retyped name f' e' color b' p')) by reflexivity.
  reflexivity.
Qed.

Lemma update_cartridge_type_raises (d : database) (now : string) (id : Z)
    (name : string) (f e : float) (color : string) (b p : float) (x : exn) :
  stored_all d [f; e; b; p] = inl x ->
  update_cartridge_type id name f e color b p (get_connection d now)
  = (inl x, get_connection d now).
Proof.
  unfold stored_all, traverse, stored. intro H.
  unfold update_cartridge_type, bind, execute, commit.
  cbn -[real filter] in *.
  destruct (real (float4 d) f) as [x0|f0]; [injection H as ->; reflexivity|].
  destruct (real (float4 d) e) as [x0|e0]; [injection H as ->; reflexivity|].
  destruct (real (float4 d) b) as [x0|b0]; [injection H as ->; reflexivity|].
  destruct (real (float4 d) p) as [x0|p0]; [injection H as ->; reflexivity|].
  discriminate H.
Qed.

Lemma update_transaction_runs (d : database) (now : string) (id : Z)
    (new_date : string) (w g m b p : float) (new_client_name : string)
    (w' g' m' b' p' : float) :
  stored_all d [w; g; m; b; p] = ok [w'; g'; m'; b'; p'] ->
  update_transaction id new_date w g m b p new_client_name (get_connection d now)
  = (inr tt,
     get_connection
       (with_transactions
          (rewritten (fun t => Transaction.id t =? id)
             (edited new_date w' g' m' b' p' new_client_name) (transactions d))
          (transactions_id_seq d) d) now).
Proof.
  unfold stored_all, traverse, stored. intro H.
  unfold update_transaction, bind, execute, commit.
  cbn -[real filter] in *.
  destruct (real (float4 d) w) as [x|w0]; [discriminate H|].
  destruct (real (float4 d) g) as [x|g0]; [discriminate H|].
  destruct (real (float4 d) m) as [x|m0]; [discriminate H|].
  destruct (real (float4 d) b) as [x|b0]; [discriminate H|].
  destruct (real (float4 d) p) as [x|p0]; [discriminate H|].
  cbn -[filter] in *. injection H as -> -> -> -> ->.
  rewrite (traverse_map _ (edited new_date w' g' m' b' p' new_client_name)) by reflexivity.
  reflexivity.
Qed.

Lemma update_transaction_raises (d : database) (now : string) (id : Z)
    (new_date : string) (w g m b p : float) (new_client_name : string) (x : exn) :
  stored_all d [w; g; m; b; p] = inl x ->
  update_transaction id new_date w g m b p new_client_name (get_connection d now)
  = (inl x, get_connection d now).
Proof.
  unfold stored_all, traverse, stored. intro H.
  unfold update_transaction, bind, execute, commit.
  cbn -[real filter] in *.
  destruct (real (float4 d) w) as [x0|w0]; [injection H as ->; reflexivity|].
  destruct (real (float4 d) g) as [x0|g0]; [injection H as ->; reflexivity|].
  destruct (real (float4 d) m) as [x0|m0]; [injection H as ->; reflexivity|].
  destruct (real (float4 d) b) as [x0|b0]; [injection H as ->; reflexivity|].
  destruct (real (float4 d) p) as [x0|p0]; [injection H as ->; reflexivity|].
  discriminate H.
Qed.


Lemma filter_none {A} (p : A -> bool) (l : list A) :
  (forall x, In x l -> p x = false) -> filter p l = [].
Proof.
  induction l as [|x l IH]; simpl; intro H; [reflexivity|].
  rewrite (H x (or_introl eq_refl)). apply IH. intros y Hy. apply H. right. exact Hy.
Qed.


(** An UPDATE changes the rows it matches and moves them: up to the order,
    the table is the old one with each matching row changed. *)
Lemma rewritten_perm {R} (hit : R -> bool) (change : R -> R) (rows : list R) :
  Permutation (rewritten hit change rows)
    (map (fun r => if hit r then change r else r) rows).
Proof.
  unfold rewritten. induction rows as [|r rows IH]; simpl; [constructor|].
  destruct (hit r); simpl.
  - eapply perm_trans; [apply Permutation_sym, Permutation_middle|].
    apply perm_skip. exact IH.
  - apply perm_skip. exact IH.
Qed.





(** The butane of the scenario written by [update_transaction] is read
    back as 245.0, and the edited transaction comes after the other one. *)
Lemma update_transaction_reads_back :
  map (fun t => (Transaction.id t, Transaction.butane_to_add t))
    (transactions
       (committed
          (update_transaction 1 "2025-01-03 10:00:00" 250 50 350 244.99999999999997
             105 "Anne")
          (referenced_example true) ""))
  = [(2%Z, 270%float); (1%Z, 245%float)].
Proof. vm_compute. reflexivity. Qed.

(* ------------------------------------------------------------------ *)
(** * The history *)

Lemma in_insert_by_date (x r : History.row) (l : list History.row) :
  In x (insert_by_date r l) <-> x = r \/ In x l.
Proof.
  induction l as [|y l IH]; simpl.
  - intuition congruence.
  - destruct (String.leb (History.Date y) (History.Date r)); simpl.
    + intuition congruence.
    + rewrite IH. intuition congruence.
Qed.

Lemma in_order_by_date_desc (x : History.row) (l : list History.row) :
  In x (order_by_date_desc l) <-> In x l.
Proof.
  induction l as [|y l IH]; simpl; [tauto|].
  rewrite in_insert_by_date, IH. intuition congruence.
Qed.

Lemma in_joined (types : list CartridgeType.row) (t : Transaction.row) (r : History.row) :
  In r (joined types t) ->
  History.ID r = Transaction.id t
  /\ exists ct, In ct types
                /\ Transaction.cartridge_type_id t = CartridgeType.id ct
                /\ History.Type_de_cartouche r = CartridgeType.name ct.
Proof.
  unfold joined. intro H. apply in_map_iff in H. destruct H as (ct & <- & Hct).
  apply filter_In in Hct. destruct Hct as [Hin Heq]. apply Z.eqb_eq in Heq.
  split; [reflexivity|]. exists ct. repeat split; assumption.
Qed.

Lemma same_key {A} (f : A -> Z) (l : list A) (a b : A) :
  NoDup (map f l) -> In a l -> In b l -> f a = f b -> a = b.
Proof.
  induction l as [|x l IH]; simpl; intros N Ha Hb E; [contradiction|].
  inversion N as [|? ? Hx N']; subst.
  destruct Ha as [->|Ha], Hb as [->|Hb].
  - reflexivity.
  - exfalso. apply Hx. rewrite E. apply in_map, Hb.
  - exfalso. apply Hx. rewrite <- E. apply in_map, Ha.
  - apply IH; assumption.
Qed.

(** C10.  A transaction whose cartridge_type_id is the id of no cartridge
    type is left out of the history: the query succeeds, no row carries the
    transaction's id, every row shown carries the name of an existing type,
    and the store is untouched. *)
Theorem get_transactions_omits_dangling (d : database) (now : string)
    (t : Transaction.row) :
  In t (transactions d) ->
  (forall ct, In ct (cartridge_types d) ->
              CartridgeType.id ct <> Transaction.cartridge_type_id t) ->
  NoDup (map Transaction.id (transactions d)) ->
  exists rows,
    outcome get_transactions d now = inr rows
    /\ ~ In (Transaction.id t) (map History.ID rows)
    /\ (forall r, In r rows ->
          exists t' ct, In t' (transactions d) /\ In ct (cartridge_types d)
                        /\ Transaction.cartridge_type_id t' = CartridgeType.id ct
                        /\ History.ID r = Transaction.id t'
                        /\ History.Type_de_cartouche r = CartridgeType.name ct)
    /\ committed get_transactions d now = d.
Proof.
  intros Hin Hdangling Hkey.
  exists (order_by_date_desc (flat_map (joined (cartridge_types d)) (transactions d))).
  split; [reflexivity|].
  assert (Hrows : forall r,
             In r (order_by_date_desc
                     (flat_map (joined (cartridge_types d)) (transactions d))) ->
             exists t' ct, In t' (transactions d) /\ In ct (cartridge_types d)
                           /\ Transaction.cartridge_type_id t' = CartridgeType.id ct
                           /\ History.ID r = Transaction.id t'
                           /\ History.Type_de_cartouche r = CartridgeType.name ct).
  { intros r Hr. apply in_order_by_date_desc, in_flat_map in Hr.
    destruct Hr as (t' & Ht' & Hr). apply in_joined in Hr.
    destruct Hr as (Hid & ct & Hct & Href & Hname).
    exists t', ct. repeat split; assumption. }
  split; [|split; [exact Hrows|reflexivity]].
  intro Hshown. apply in_map_iff in Hshown. destruct Hshown as (r & Hid & Hr).
  destruct (Hrows r Hr) as (t' & ct & Ht' & Hct & Href & Hid' & _).
  assert (t' = t).
  { apply (same_key Transaction.id (transactions d)); try assumption. congruence. }
  subst t'. apply (Hdangling ct Hct). symmetry. exact Href.
Qed.

Lemma get_transactions_omits_dangling_witness :
  map History.ID
    (match outcome get_transactions dangling_example "" with
     | inr rows => rows
     | inl _ => []
     end) = [2%Z]
  /\ exists rows,
       outcome get_transactions dangling_example "" = inr rows
       /\ ~ In 1%Z (map History.ID rows).
Proof.
  split; [reflexivity|].
  destruct (get_transactions_omits_dangling dangling_example ""
              dangling_transaction)
    as (rows & Hrows & Habsent & _).
  - left. reflexivity.
  - intros ct Hct. vm_compute in Hct.
    destruct Hct as [<-|[]]. discriminate.
  - vm_compute. repeat constructor; simpl; intuition discriminate.
  - exists rows. split; [exact Hrows|exact Habsent].
Defined.

(** Where the tables carry no FOREIGN KEY constraint, deleting a type that a
    transaction refers to succeeds and the transaction leaves the history;
    where they carry it, the DELETE raises and the type stays. *)
Lemma history_after_delete_cartridge_type :
  outcome (delete_cartridge_type 1) (referenced_example false) "" = inr tt
  /\ outcome get_transactions
       (committed (delete_cartridge_type 1) (referenced_example false) "") ""
     = outcome get_transactions dangling_example ""
  /\ map History.ID
       (match outcome get_transactions
                (committed (delete_cartridge_type 1) (referenced_example false) "") ""
        with inr rows => rows | inl _ => [] end) = [2%Z]
  /\ outcome (delete_cartridge_type 1) (referenced_example true) ""
     = inl (IntegrityError "transactions_cartridge_type_id_fkey")
  /\ committed (delete_cartridge_type 1) (referenced_example true) ""
     = referenced_example true.
Proof. repeat split; reflexivity. Qed.

(* ------------------------------------------------------------------ *)
(** * What each call commits *)

Local Open Scope Z_scope.

Lemma add_cartridge_type_runs (d : database) (now : string) (n : string)
    (f e : float) (c : string) (b p f' e' b' p' : float) :
  stored_all d [f; e; b; p] = ok [f'; e'; b'; p'] ->
  add_cartridge_type n f e c b p (get_connection d now)
  = if existsb (fun x => CartridgeType.id x =? cartridge_types_id_seq d)
         (cartridge_types d)
    then (inl (IntegrityError "cartridge_types_pkey"), get_connection d now)
    else (inr tt,
          get_connection
            (with_cartridge_types
               (cartridge_types d
                ++ [{| CartridgeType.id := cartridge_types_id_seq d;
                       CartridgeType.name := n; CartridgeType.full_gas_mass := f';
                       CartridgeType.empty_mass := e'; CartridgeType.color := c;
                       CartridgeType.butane := b'; CartridgeType.propane := p' |}])
               (cartridge_types_id_seq d + 1) d) now).
Proof.
  unfold stored_all, traverse, stored. intro H.
  unfold add_cartridge_type, bind, execute, commit.
  cbn -[real] in *.
  destruct (real (float4 d) f) as [x|f0]; [discriminate H|].
  destruct (real (float4 d) e) as [x|e0]; [discriminate H|].
  destruct (real (float4 d) b) as [x|b0]; [discriminate H|].
  destruct (real (float4 d) p) as [x|p0]; [discriminate H|].
  cbn in *. injection H as -> -> -> ->.
  destruct (existsb _ (cartridge_types d)); reflexivity.
Qed.

Lemma add_cartridge_type_raises (d : database) (now : string) (n : string)
    (f e : float) (c : string) (b p : float) (x : exn) :
  stored_all d [f; e; b; p] = inl x ->
  add_cartridge_type n f e c b p (get_connection d now)
  = (inl x, get_connection d now).
Proof.
  unfold stored_all, traverse, stored. intro H.
  unfold add_cartridge_type, bind, execute, commit.
  cbn -[real] in *.
  destruct (real (float4 d) f) as [x0|f0]; [injection H as ->; reflexivity|].
  destruct (real (float4 d) e) as [x0|e0]; [injection H as ->; reflexivity|].
  destruct (real (float4 d) b) as [x0|b0]; [injection H as ->; reflexivity|].
  destruct (real (float4 d) p) as [x0|p0]; [injection H as ->; reflexivity|].
  discriminate H.
Qed.

Lemma delete_cartridge_type_runs (d : database) (now : string) (i : Z) :
  delete_cartridge_type i (get_connection d now)
  = if existsb (fun ct => (CartridgeType.id ct =? i) && referenced d ct)
         (cartridge_types d)
    then (inl (IntegrityError "transactions_cartridge_type_id_fkey"),
          get_connection d now)
    else (inr tt,
          get_connection
            (with_cartridge_types
               (filter (fun ct => negb (CartridgeType.id ct =? i)) (cartridge_types d))
               (cartridge_types_id_seq d) d) now).
Proof.
  unfold delete_cartridge_type, bind, execute, commit. cbn.
  destruct (existsb _ (cartridge_types d)); reflexivity.
Qed.

Lemma delete_transaction_runs (d : database) (now : string) (i : Z) :
  delete_transaction i (get_connection d now)
  = (inr tt,
     get_connection
       (with_transactions
          (filter (fun t => negb (Transaction.id t =? i)) (transactions d))
          (transactions_id_seq d) d) now).
Proof. reflexivity. Qed.

Lemma add_transaction_runs (w : world) (i : Z) (c : string)
    (mw g m b p : float) (n : string) :
  add_transaction i c mw g m b p n w
  = (inl (TypeError "not all arguments converted during string formatting"), w).
Proof. reflexivity. Qed.

Lemma calculer_commits_nothing (d : database) (now : string)
    (t : CartridgeType.row) (n : string) (w : float) :
  committed (calculer_et_enregistrer t n w) d now = d.
Proof.
  unfold committed, calculer_et_enregistrer.
  destruct (compute_fill t w); reflexivity.
Qed.

Lemma map_map_same {A B} (f : A -> B) (g : A -> A) (l : list A) :
  (forall x, f (g x) = f x) -> map f (map g l) = map f l.
Proof.
  intro H. rewrite map_map. apply map_ext. exact H.
Qed.

Lemma key_of_kept_row {K R} (key : R -> K) (keep : R -> bool) (rows : list R) (k : K) :
  In k (map key (filter keep rows)) -> In k (map key rows).
Proof.
  rewrite !in_map_iff. intros (x & E & Hx). exists x. split; [exact E|].
  apply filter_In in Hx. apply Hx.
Qed.

Lemma kept_rows_stay_distinct {K R} (key : R -> K) (keep : R -> bool) (rows : list R) :
  NoDup (map key rows) -> NoDup (map key (filter keep rows)).
Proof.
  intro N. induction rows as [|x rows IH]; [constructor|].
  simpl in N. apply NoDup_cons_iff in N. destruct N as [Hx N].
  simpl. destruct (keep x); [|apply IH, N].
  simpl. constructor; [|apply IH, N].
  intro Hin. apply Hx. apply (key_of_kept_row key keep). exact Hin.
Qed.

(** An UPDATE that leaves the key alone keeps the keys of the table, up to
    their order. *)
Lemma keys_of_rewritten {K R} (key : R -> K) (hit : R -> bool) (change : R -> R)
    (rows : list R) :
  (forall r, key (change r) = key r) ->
  Permutation (map key (rewritten hit change rows)) (map key rows).
Proof.
  intro H. eapply perm_trans; [apply Permutation_map, rewritten_perm|].
  rewrite map_map. erewrite map_ext; [apply Permutation_refl|].
  intro r. simpl. destruct (hit r); [apply H|reflexivity].
Qed.

Lemma step_seed (d : database) (now : string) :
  step d (Seed, now) = match cartridge_types d with [] => seeded d | _ => d end.
Proof.
  change (step d (Seed, now)) with (startup now d).
  destruct (cartridge_types d) eqn:E.
  - apply startup_on_empty, E.
  - apply startup_on_inhabited. congruence.
Qed.

Lemma step_add_type (d : database) (now : string) (n : string)
    (f e : float) (c : string) (b p : float) :
  step d (AddType n f e c b p, now) = d
  \/ exists f' e' b' p',
       stored_all d [f; e; b; p] = ok [f'; e'; b'; p']
       /\ existsb (fun x => CartridgeType.id x =? cartridge_types_id_seq d)
            (cartridge_types d) = false
       /\ step d (AddType n f e c b p, now)
          = with_cartridge_types
              (cartridge_types d
               ++ [{| CartridgeType.id := cartridge_types_id_seq d;
                      CartridgeType.name := n; CartridgeType.full_gas_mass := f';
                      CartridgeType.empty_mass := e'; CartridgeType.color := c;
                      CartridgeType.butane := b'; CartridgeType.propane := p' |}])
              (cartridge_types_id_seq d + 1) d.
Proof.
  unfold step, committed. cbn [perform fst snd].
  destruct (stored_all_four d f e b p) as [[x E]|(f' & e' & b' & p' & E)].
  - left. rewrite (add_cartridge_type_raises _ _ _ _ _ _ _ _ _ E). reflexivity.
  - rewrite (add_cartridge_type_runs _ _ _ _ _ _ _ _ _ _ _ _ E).
    destruct (existsb _ (cartridge_types d)) eqn:X; [left; reflexivity|].
    right. exists f', e', b', p'. split; [exact E|split; reflexivity].
Qed.

Lemma step_ajouter (d : database) (now : string) (n : string)
    (f e : float) (c : string) (b p : float) :
  step d (Ajouter n f e c b p, now)
  = match n with
    | EmptyString => d
    | _ => step d (AddType n f e c b p, now)
    end.
Proof.
  destruct n as [|a n]; [reflexivity|].
  unfold step, committed. cbn [perform fst snd]. unfold ajouter, bind.
  destruct (stored_all_four d f e b p) as [[x E]|(f' & e' & b' & p' & E)].
  - rewrite (add_cartridge_type_raises _ _ _ _ _ _ _ _ _ E). reflexivity.
  - rewrite (add_cartridge_type_runs _ _ _ _ _ _ _ _ _ _ _ _ E).
    destruct (existsb _ (cartridge_types d)); reflexivity.
Qed.

Lemma step_update_type (d : database) (now : string) (i : Z) (n : string)
    (f e : float) (c : string) (b p : float) :
  step d (UpdateType i n f e c b p, now) = d
  \/ exists f' e' b' p',
       stored_all d [f; e; b; p] = ok [f'; e'; b'; p']
       /\ step d (UpdateType i n f e c b p, now)
          = with_cartridge_types
              (rewritten (fun r => CartridgeType.id r =? i) (retyped n f' e' c b' p')
                 (cartridge_types d))
              (cartridge_types_id_seq d) d.
Proof.
  unfold step, committed. cbn [perform fst snd].
  destruct (stored_all_four d f e b p) as [[x E]|(f' & e' & b' & p' & E)].
  - left. rewrite (update_cartridge_type_raises _ _ _ _ _ _ _ _ _ _ E). reflexivity.
  - right. exists f', e', b', p'. split; [exact E|].
    rewrite (update_cartridge_type_runs _ _ _ _ _ _ _ _ _ _ _ _ _ E). reflexivity.
Qed.

Lemma step_delete_type (d : database) (now : string) (i : Z) :
  step d (DeleteType i, now)
  = if existsb (fun ct => (CartridgeType.id ct =? i) && referenced d ct)
         (cartridge_types d)
    then d
    else with_cartridge_types
           (filter (fun ct => negb (CartridgeType.id ct =? i)) (cartridge_types d))
           (cartridge_types_id_seq d) d.
Proof.
  unfold step, committed. cbn [perform fst snd]. rewrite delete_cartridge_type_runs.
  destruct (existsb _ (cartridge_types d)); reflexivity.
Qed.

Lemma step_delete_transaction (d : database) (now : string) (i : Z) :
  step d (DeleteTransaction i, now)
  = with_transactions
      (filter (fun t => negb (Transaction.id t =? i)) (transactions d))
      (transactions_id_seq d) d.
Proof. reflexivity. Qed.

Lemma step_update_transaction (d : database) (now : string) (i : Z)
    (nd : string) (w g m b p : float) (n : string) :
  step d (UpdateTransaction i nd w g m b p n, now) = d
  \/ exists w' g' m' b' p',
       stored_all d [w; g; m; b; p] = ok [w'; g'; m'; b'; p']
       /\ step d (UpdateTransaction i nd w g m b p n, now)
          = with_transactions
              (rewritten (fun t => Transaction.id t =? i) (edited nd w' g' m' b' p' n)
                 (transactions d))
              (transactions_id_seq d) d.
Proof.
  unfold step, committed. cbn [perform fst snd].
  destruct (stored_all_five d w g m b p) as [[x E]|(w' & g' & m' & b' & p' & E)].
  - left. rewrite (update_transaction_raises _ _ _ _ _ _ _ _ _ _ _ E). reflexivity.
  - right. exists w', g', m', b', p'. split; [exact E|].
    rewrite (update_transaction_runs _ _ _ _ _ _ _ _ _ _ _ _ _ _ _ E). reflexivity.
Qed.

Lemma step_reads (d : database) (now : string) :
  step d (ListTypes, now) = d /\ step d (ListTransactions, now) = d.
Proof. split; reflexivity. Qed.

Lemma step_add_transaction (d : database) (now : string) (i : Z) (c : string)
    (w g m b p : float) (n : string) :
  step d (AddTransaction i c w g m b p n, now) = d.
Proof. reflexivity. Qed.

Lemma step_calculer (d : database) (now : string) (t : CartridgeType.row)
    (n : string) (w : float) :
  step d (Calculer t n w, now) = d.
Proof. apply calculer_commits_nothing. Qed.


Lemma step_changes (d : database) (call : operation * string) :
  change d (step d call).
Proof.
  destruct call as [op now]. destruct op.
  - rewrite step_seed. destruct (cartridge_types d) eqn:E; [|constructor].
    apply Seeded, E.
  - rewrite (proj1 (step_reads _ _)). constructor.
  - destruct (step_add_type d now name full_gas_mass empty_mass color butane propane)
      as [E|(f' & e' & b' & p' & _ & _ & E)]; rewrite E; [constructor|].
    apply TypeAdded. reflexivity.
  - destruct (step_update_type d now id name full_gas_mass empty_mass color butane propane)
      as [E|(f' & e' & b' & p' & _ & E)]; rewrite E; [constructor|].
    apply TypeRewritten. reflexivity.
  - rewrite step_delete_type.
    destruct (existsb _ (cartridge_types d)) eqn:E; [constructor|].
    apply TypeDeleted, E.
  - rewrite step_add_transaction. constructor.
  - rewrite (proj2 (step_reads _ _)). constructor.
  - rewrite step_delete_transaction. constructor.
  - destruct (step_update_transaction d now transaction_id new_date new_measured_weight
                new_gas_mass new_missing_gas new_butane_to_add new_propane_to_add
                new_client_name)
      as [E|(w' & g' & m' & b' & p' & _ & E)]; rewrite E; [constructor|].
    apply TransactionRewritten; reflexivity.
  - rewrite step_calculer. constructor.
  - rewrite step_ajouter. destruct new_name; [constructor|].
    destruct (step_add_type d now (String a new_name) new_full_gas_mass new_empty_mass
                new_color new_butane new_propane)
      as [E|(f' & e' & b' & p' & _ & _ & E)]; rewrite E; [constructor|].
    apply TypeAdded. reflexivity.
Qed.

Lemma keyed_seeded (d : database) :
  cartridge_types d = [] -> keyed d -> keyed (seeded d).
Proof.
  intros E (_ & _ & N & B). unfold keyed, type_ids, transaction_ids, seeded.
  cbn [with_cartridge_types cartridge_types cartridge_types_id_seq transactions
       transactions_id_seq map CartridgeType.id].
  split; [|split; [|split; assumption]].
  - repeat constructor; simpl; lia.
  - simpl. lia.
Qed.

Lemma keyed_add_type (d : database) (r : CartridgeType.row) :
  CartridgeType.id r = cartridge_types_id_seq d ->
  keyed d ->
  keyed (with_cartridge_types (cartridge_types d ++ [r]) (cartridge_types_id_seq d + 1) d).
Proof.
  intros E (N1 & B1 & N2 & B2). unfold keyed, type_ids, transaction_ids.
  cbn [with_cartridge_types cartridge_types cartridge_types_id_seq transactions
       transactions_id_seq].
  rewrite map_app. simpl map. split; [|split; [|split; assumption]].
  - apply NoDup_app; [exact N1|repeat constructor; simpl; tauto|].
    intros i Hi [Hr|[]]. apply B1 in Hi. lia.
  - intros i Hi. apply in_app_or in Hi. destruct Hi as [Hi|[Hi|[]]].
    + apply B1 in Hi. lia.
    + lia.
Qed.

Lemma keyed_change (d d' : database) : change d d' -> keyed d -> keyed d'.
Proof.
  intros C K. destruct C as [|E|r E|i g G|i E|i g G _|i].
  - exact K.
  - apply keyed_seeded; assumption.
  - apply keyed_add_type; assumption.
  - destruct K as (N1 & B1 & N2 & B2). unfold keyed, type_ids, transaction_ids.
    cbn [with_cartridge_types cartridge_types cartridge_types_id_seq transactions
         transactions_id_seq].
    pose proof (keys_of_rewritten CartridgeType.id (fun r => CartridgeType.id r =? i) g
                  (cartridge_types d) G) as P.
    split; [|split; [|split; assumption]].
    + apply (Permutation_NoDup (Permutation_sym P)), N1.
    + intros k Hk. apply B1. apply (Permutation_in _ P), Hk.
  - destruct K as (N1 & B1 & N2 & B2). unfold keyed, type_ids, transaction_ids.
    cbn [with_cartridge_types cartridge_types cartridge_types_id_seq transactions
         transactions_id_seq].
    split; [apply kept_rows_stay_distinct, N1|split; [|split; assumption]].
    intros k Hk. apply B1. eapply key_of_kept_row. exact Hk.
  - destruct K as (N1 & B1 & N2 & B2). unfold keyed, type_ids, transaction_ids.
    cbn [with_transactions cartridge_types cartridge_types_id_seq transactions
         transactions_id_seq].
    pose proof (keys_of_rewritten Transaction.id (fun t => Transaction.id t =? i) g
                  (transactions d) G) as P.
    split; [exact N1|split; [exact B1|split]].
    + apply (Permutation_NoDup (Permutation_sym P)), N2.
    + intros k Hk. apply B2. apply (Permutation_in _ P), Hk.
  - destruct K as (N1 & B1 & N2 & B2). unfold keyed, type_ids, transaction_ids.
    cbn [with_transactions cartridge_types cartridge_types_id_seq transactions
         transactions_id_seq].
    split; [exact N1|split; [exact B1|split; [apply kept_rows_stay_distinct, N2|]]].
    intros k Hk. apply B2. eapply key_of_kept_row. exact Hk.
Qed.

Lemma keyed_step (d : database) (call : operation * string) :
  keyed d -> keyed (step d call).
Proof. apply keyed_change, step_changes. Qed.

Lemma foreign_key_step (d : database) (call : operation * string) :
  foreign_key (step d call) = foreign_key d.
Proof. destruct (step_changes d call); reflexivity. Qed.

Lemma float4_step (d : database) (call : operation * string) :
  float4 (step d call) = float4 d.
Proof. destruct (step_changes d call); reflexivity. Qed.

Lemma referential_more_types (d : database) (l : list CartridgeType.row) (s : Z) :
  (forall i, In i (type_ids d) -> In i (map CartridgeType.id l)) ->
  referential d -> referential (with_cartridge_types l s d).
Proof.
  intros H R t Ht. apply H. apply R. exact Ht.
Qed.

Lemma referential_step (d : database) (call : operation * string) :
  foreign_key d = true -> referential d -> referential (step d call).
Proof.
  intros F R. destruct (step_changes d call) as [|E|r E|i g G|i E|i g _ G|i].
  - exact R.
  - apply referential_more_types; [|exact R].
    unfold type_ids. rewrite E. intros i [].
  - apply referential_more_types; [|exact R].
    intros i Hi. rewrite map_app. apply in_or_app. left. exact Hi.
  - apply referential_more_types; [|exact R].
    intros k Hk.
    apply (Permutation_in _ (Permutation_sym
             (keys_of_rewritten CartridgeType.id _ g (cartridge_types d) G))), Hk.
  - intros t Ht. cbn [with_cartridge_types transactions] in Ht.
    pose proof (R t Ht) as Hin. unfold type_ids in *.
    cbn [with_cartridge_types cartridge_types].
    apply in_map_iff in Hin. destruct Hin as (ct & Hid & Hct).
    apply in_map_iff. exists ct. split; [exact Hid|].
    apply filter_In. split; [exact Hct|].
    destruct (Z.eqb_spec (CartridgeType.id ct) i) as [Ei|Ei]; [|reflexivity].
    exfalso.
    assert (X : existsb (fun ct => (CartridgeType.id ct =? i) && referenced d ct)
                  (cartridge_types d) = true).
    { apply existsb_exists. exists ct. split; [exact Hct|].
      apply andb_true_iff. split; [apply Z.eqb_eq, Ei|].
      unfold referenced. rewrite F. simpl.
      apply existsb_exists. exists t. split; [exact Ht|].
      apply Z.eqb_eq. symmetry. exact Hid. }
    congruence.
  - intros t Ht. cbn [with_transactions transactions] in Ht.
    apply (Permutation_in _ (rewritten_perm _ _ _)) in Ht.
    apply in_map_iff in Ht. destruct Ht as (t0 & <- & Ht0).
    unfold type_ids. cbn [with_transactions cartridge_types].
    destruct (Transaction.id t0 =? i); [rewrite G|]; apply (R t0 Ht0).
  - intros t Ht. cbn [with_transactions transactions] in Ht.
    apply filter_In in Ht. apply (R t), Ht.
Qed.

Lemma ledger_step (d : database) (call : operation * string) :
  incl (transaction_ids (step d call)) (transaction_ids d)
  /\ (List.length (transactions (step d call)) <= List.length (transactions d))%nat.
Proof.
  destruct (step_changes d call) as [|E|r E|i g G|i E|i g G _|i];
    try (split; [apply incl_refl|apply Nat.le_refl]).
  - unfold transaction_ids. cbn [with_transactions transactions].
    pose proof (keys_of_rewritten Transaction.id (fun t => Transaction.id t =? i) g
                  (transactions d) G) as P.
    split.
    + intros k Hk. apply (Permutation_in _ P), Hk.
    + apply Permutation_length in P. rewrite !length_map in P. rewrite P.
      apply Nat.le_refl.
  - unfold transaction_ids. cbn [with_transactions transactions]. split.
    + intros k Hk. eapply key_of_kept_row. exact Hk.
    + apply filter_length_le.
Qed.

(** X1.  The keys are kept: in a store whose ids are distinct and below
    their sequences, every call of the program, and so every sequence of
    calls, leaves the ids of both tables distinct and below the sequences. *)
Theorem keys_are_kept (calls : list (operation * string)) (d : database) :
  keyed d -> keyed (history_of calls d).
Proof.
  revert d. induction calls as [|c calls IH]; intros d K; [exact K|].
  simpl. apply IH. apply keyed_step. exact K.
Qed.

Lemma keyed_empty_database : keyed empty_database.
Proof.
  unfold keyed, type_ids, transaction_ids. simpl.
  repeat split; try constructor; intros i [].
Qed.

Lemma keys_are_kept_witness :
  keyed empty_database
  /\ keyed (history_of
              [(Seed, ""); (Ajouter "Type F" 700 350 "Bleu" 0.70 0.30, "");
               (DeleteType 2, ""); (UpdateType 6 "Type G" 800 400 "Rouge" 0.60 0.40, "")]
              empty_database).
Proof.
  split; [exact keyed_empty_database|].
  apply (keys_are_kept _ empty_database keyed_empty_database).
Defined.

(** X2.  References are kept: where the tables carry the FOREIGN KEY
    constraint and every transaction refers to an existing cartridge type,
    this is still so after any sequence of calls; the constraint itself is
    never dropped. *)
Theorem references_are_kept (calls : list (operation * string)) (d : database) :
  foreign_key d = true -> referential d ->
  foreign_key (history_of calls d) = true /\ referential (history_of calls d).
Proof.
  revert d. induction calls as [|c calls IH]; intros d F R; [split; assumption|].
  simpl. apply IH.
  - rewrite foreign_key_step. exact F.
  - apply referential_step; assumption.
Qed.

Lemma references_are_kept_witness :
  foreign_key (referenced_example true) = true
  /\ referential
       (history_of [(DeleteType 1, ""); (DeleteTransaction 1, ""); (DeleteType 1, "")]
          (referenced_example true)).
Proof.
  split; [reflexivity|].
  apply (references_are_kept _ (referenced_example true) eq_refl).
  intros t Ht. simpl in Ht. destruct Ht as [<-|[<-|[]]]; simpl; tauto.
Defined.

Lemma ledger_calls (calls : list (operation * string)) (d : database) :
  incl (transaction_ids (history_of calls d)) (transaction_ids d)
  /\ (List.length (transactions (history_of calls d))
      <= List.length (transactions d))%nat.
Proof.
  revert d. induction calls as [|c calls IH]; intro d.
  - split; [apply incl_refl|apply Nat.le_refl].
  - simpl. destruct (IH (step d c)) as [I L]. destruct (ledger_step d c) as [I' L'].
    split; [eapply incl_tran; eassumption|eapply Nat.le_trans; eassumption].
Qed.

(** X3.  The ledger never grows: after any sequence of calls the ids of the
    transactions are among those there were and there are no more rows than
    before; a ledger that is empty stays empty, whatever is called. *)
Theorem ledger_never_grows (calls : list (operation * string)) (d : database) :
  incl (transaction_ids (history_of calls d)) (transaction_ids d)
  /\ (List.length (transactions (history_of calls d)) <= List.length (transactions d))%nat
  /\ (transactions d = [] -> transactions (history_of calls d) = []).
Proof.
  destruct (ledger_calls calls d) as [I L]. split; [exact I|]. split; [exact L|].
  intro E. rewrite E in L. simpl in L.
  destruct (transactions (history_of calls d)); [reflexivity|simpl in L; lia].
Qed.

(* ------------------------------------------------------------------ *)
(** * The catalog: add, update, delete *)

Local Open Scope float_scope.








(** X7.  Where the FOREIGN KEY constraint is absent, or no transaction
    refers to the id, [delete_cartridge_type] succeeds, removes exactly the
    types with that id, leaves the ledger alone, and changes nothing at all
    when no type has the id. *)
Theorem delete_cartridge_type_removes (d : database) (now : string) (i : Z) :
  (foreign_key d = false
   \/ forall t, In t (transactions d) -> Transaction.cartridge_type_id t <> i) ->
  let d' := committed (delete_cartridge_type i) d now in
  outcome (delete_cartridge_type i) d now = inr tt
  /\ transactions d' = transactions d
  /\ (forall r, In r (cartridge_types d')
                <-> In r (cartridge_types d) /\ CartridgeType.id r <> i)
  /\ ((forall r, In r (cartridge_types d) -> CartridgeType.id r <> i) -> d' = d).
Proof.
  intros H d'. subst d'. unfold outcome, committed.
  rewrite delete_cartridge_type_runs.
  assert (E : existsb (fun ct => (CartridgeType.id ct =? i)%Z && referenced d ct)
                (cartridge_types d) = false).
  { apply not_true_is_false. intro X. apply existsb_exists in X.
    destruct X as (ct & Hct & X). apply andb_true_iff in X. destruct X as [Ei R].
    apply Z.eqb_eq in Ei. unfold referenced in R. apply andb_true_iff in R.
    destruct R as [F R]. destruct H as [H|H]; [congruence|].
    apply existsb_exists in R. destruct R as (t & Ht & Et). apply Z.eqb_eq in Et.
    apply (H t Ht). congruence. }
  rewrite E. cbn [fst snd durable get_connection with_cartridge_types
                  cartridge_types transactions].
  split; [reflexivity|]. split; [reflexivity|]. split.
  - intro r. rewrite filter_In, negb_true_iff, Z.eqb_neq. reflexivity.
  - intro A. rewrite forallb_filter_id.
    + apply with_cartridge_types_same.
    + apply forallb_forall. intros r Hr. apply negb_true_iff, Z.eqb_neq, A, Hr.
Qed.

Lemma delete_cartridge_type_removes_witness :
  (forall t, In t (transactions (startup "" empty_database)) ->
             Transaction.cartridge_type_id t <> 3%Z)
  /\ outcome (delete_cartridge_type 3) (startup "" empty_database) "" = inr tt
  /\ forall r,
       In r (cartridge_types
               (committed (delete_cartridge_type 3) (startup "" empty_database) ""))
       <-> In r (cartridge_types (startup "" empty_database))
           /\ CartridgeType.id r <> 3%Z.
Proof.
  assert (H : forall t, In t (transactions (startup "" empty_database)) ->
                        Transaction.cartridge_type_id t <> 3%Z).
  { intros t []. }
  split; [exact H|].
  destruct (delete_cartridge_type_removes (startup "" empty_database) "" 3
              (or_intror H)) as (A & _ & B & _).
  split; [exact A|exact B].
Defined.

(** X8.  Where the tables carry the FOREIGN KEY constraint, deleting a type
    that a transaction refers to raises IntegrityError and leaves the session
    and the committed store unchanged. *)
Theorem delete_cartridge_type_refused (d : database) (now : string) (i : Z)
    (ct : CartridgeType.row) (t : Transaction.row) :
  foreign_key d = true ->
  In ct (cartridge_types d) -> CartridgeType.id ct = i ->
  In t (transactions d) -> Transaction.cartridge_type_id t = i ->
  outcome (delete_cartridge_type i) d now
  = inl (IntegrityError "transactions_cartridge_type_id_fkey")
  /\ seen (delete_cartridge_type i) d now = d
  /\ committed (delete_cartridge_type i) d now = d.
Proof.
  intros F Hct Ei Ht Et. unfold outcome, seen, committed.
  rewrite delete_cartridge_type_runs.
  assert (E : existsb (fun ct => (CartridgeType.id ct =? i)%Z && referenced d ct)
                (cartridge_types d) = true).
  { apply existsb_exists. exists ct. split; [exact Hct|].
    apply andb_true_iff. split; [apply Z.eqb_eq, Ei|].
    unfold referenced. rewrite F. simpl. apply existsb_exists.
    exists t. split; [exact Ht|]. apply Z.eqb_eq. congruence. }
  rewrite E. repeat split; reflexivity.
Qed.

Lemma delete_cartridge_type_refused_witness :
  outcome (delete_cartridge_type 1) (referenced_example true) ""
  = inl (IntegrityError "transactions_cartridge_type_id_fkey").
Proof.
  refine (proj1 (delete_cartridge_type_refused (referenced_example true) "" 1
                   scenario_type dangling_transaction eq_refl _ eq_refl _ eq_refl)).
  - left. reflexivity.
  - left. reflexivity.
Defined.

(* ------------------------------------------------------------------ *)
(** * The ledger: delete *)

Lemma history_rows (d : database) (now : string) :
  outcome get_transactions d now
  = inr (order_by_date_desc (flat_map (joined (cartridge_types d)) (transactions d))).
Proof. reflexivity. Qed.

Lemma history_ids (d : database) (r : History.row) :
  In r (order_by_date_desc (flat_map (joined (cartridge_types d)) (transactions d))) ->
  In (History.ID r) (transaction_ids d).
Proof.
  intro H. apply in_order_by_date_desc, in_flat_map in H.
  destruct H as (t & Ht & Hr). apply in_joined in Hr. destruct Hr as [E _].
  rewrite E. unfold transaction_ids. apply in_map. exact Ht.
Qed.

(** X9.  [delete_transaction] succeeds, leaves the catalog alone and
    removes exactly the transactions with the id; the history then has no
    row with that id, directly and after any further sequence of calls. *)
Theorem delete_transaction_is_terminal (d : database) (now : string) (i : Z)
    (calls : list (operation * string)) :
  let d' := committed (delete_transaction i) d now in
  outcome (delete_transaction i) d now = inr tt
  /\ cartridge_types d' = cartridge_types d
  /\ (forall t, In t (transactions d')
                <-> In t (transactions d) /\ Transaction.id t <> i)
  /\ (forall rows, outcome get_transactions d' now = inr rows ->
                   ~ In i (map History.ID rows))
  /\ (forall rows, outcome get_transactions (history_of calls d') now = inr rows ->
                   ~ In i (map History.ID rows)).
Proof.
  intro d'. subst d'. unfold outcome at 1, committed.
  rewrite delete_transaction_runs.
  cbn [fst snd durable get_connection with_transactions cartridge_types transactions].
  set (d' := with_transactions
               (filter (fun t => negb (Transaction.id t =? i)%Z) (transactions d))
               (transactions_id_seq d) d).
  assert (A : ~ In i (transaction_ids d')).
  { unfold transaction_ids, d'. cbn [with_transactions transactions].
    intro H. apply in_map_iff in H. destruct H as (t & E & Ht).
    apply filter_In in Ht. destruct Ht as [_ Ht].
    apply negb_true_iff, Z.eqb_neq in Ht. contradiction. }
  split; [reflexivity|]. split; [reflexivity|]. split; [|split].
  - intro t. rewrite filter_In, negb_true_iff, Z.eqb_neq. reflexivity.
  - intros rows E. rewrite history_rows in E. injection E as <-.
    intro H. apply in_map_iff in H. destruct H as (r & <- & Hr).
    apply A. apply history_ids. exact Hr.
  - intros rows E. rewrite history_rows in E. injection E as <-.
    intro H. apply in_map_iff in H. destruct H as (r & <- & Hr).
    apply A. apply (proj1 (ledger_calls calls d')).
    apply history_ids. exact Hr.
Qed.

(* ------------------------------------------------------------------ *)
(** * The history: order, completeness, what it shows *)

Lemma insert_by_date_perm (r : History.row) (l : list History.row) :
  Permutation (insert_by_date r l) (r :: l).
Proof.
  induction l as [|x l IH]; simpl; [apply Permutation_refl|].
  destruct (String.leb (History.Date x) (History.Date r)); [apply Permutation_refl|].
  eapply perm_trans; [apply perm_skip, IH|apply perm_swap].
Qed.

Lemma order_by_date_desc_perm (l : list History.row) :
  Permutation (order_by_date_desc l) l.
Proof.
  induction l as [|x l IH]; simpl; [constructor|].
  eapply perm_trans; [apply insert_by_date_perm|]. apply perm_skip, IH.
Qed.

Lemma insert_by_date_sorted (r : History.row) (l : list History.row) :
  Sorted newer_first l -> Sorted newer_first (insert_by_date r l).
Proof.
  induction l as [|x l IH]; simpl; intro S.
  - repeat constructor.
  - destruct (String.leb (History.Date x) (History.Date r)) eqn:E.
    + constructor; [exact S|]. constructor. exact E.
    + inversion S as [|? ? S' H]; subst.
      assert (X : newer_first x r).
      { unfold newer_first. destruct (String.leb_total (History.Date x) (History.Date r));
          congruence. }
      constructor; [apply IH, S'|].
      destruct l as [|y l]; simpl.
      * constructor. exact X.
      * destruct (String.leb (History.Date y) (History.Date r)).
        -- constructor. exact X.
        -- inversion H; subst. constructor. assumption.
Qed.

Lemma order_by_date_desc_sorted (l : list History.row) :
  Sorted newer_first (order_by_date_desc l).
Proof.
  induction l as [|x l IH]; simpl; [constructor|].
  apply insert_by_date_sorted, IH.
Qed.

(** X10.  [get_transactions] writes nothing and returns the rows of the
    join, each once, ordered by date, newest first. *)
Theorem history_is_ordered (d : database) (now : string) :
  exists rows,
    outcome get_transactions d now = inr rows
    /\ Sorted newer_first rows
    /\ Permutation rows (flat_map (joined (cartridge_types d)) (transactions d))
    /\ seen get_transactions d now = d
    /\ committed get_transactions d now = d.
Proof.
  eexists. split; [apply history_rows|].
  split; [apply order_by_date_desc_sorted|].
  split; [apply order_by_date_desc_perm|]. split; reflexivity.
Qed.

Lemma joined_one (types : list CartridgeType.row) (t : Transaction.row) :
  NoDup (map CartridgeType.id types) ->
  In (Transaction.cartridge_type_id t) (map CartridgeType.id types) ->
  map History.ID (joined types t) = [Transaction.id t].
Proof.
  unfold joined. rewrite map_map. simpl.
  induction types as [|ct types IH]; simpl; intros N H; [contradiction|].
  inversion N as [|? ? Hct N']; subst.
  destruct (Z.eqb_spec (Transaction.cartridge_type_id t) (CartridgeType.id ct)) as [E|E].
  - simpl. f_equal.
    rewrite filter_none; [reflexivity|].
    intros x Hx. apply Z.eqb_neq. intro E'. apply Hct. rewrite <- E, E'.
    apply in_map. exact Hx.
  - apply IH; [exact N'|]. destruct H as [H|H]; [congruence|exact H].
Qed.

(** X11.  In a store that keeps its keys and in which every transaction
    refers to an existing type, the history has exactly one row per
    transaction. *)
Theorem history_is_complete (d : database) (now : string) :
  keyed d -> referential d ->
  exists rows,
    outcome get_transactions d now = inr rows
    /\ Permutation (map History.ID rows) (transaction_ids d)
    /\ List.length rows = List.length (transactions d).
Proof.
  intros (N & _) R. eexists. split; [apply history_rows|].
  assert (P : Permutation
                (map History.ID
                   (order_by_date_desc
                      (flat_map (joined (cartridge_types d)) (transactions d))))
                (transaction_ids d)).
  { eapply perm_trans; [apply Permutation_map, order_by_date_desc_perm|].
    unfold transaction_ids. unfold referential in R.
    induction (transactions d) as [|t l IH]; simpl; [constructor|].
    rewrite map_app, (joined_one _ t N) by (apply R; left; reflexivity).
    simpl. apply perm_skip. apply IH. intros x Hx. apply R. right. exact Hx. }
  split; [exact P|].
  apply Permutation_length in P. unfold transaction_ids in P.
  rewrite !length_map in P. exact P.
Qed.

Lemma keyed_referenced_example : keyed (referenced_example true).
Proof.
  unfold keyed, type_ids, transaction_ids. simpl.
  repeat split; try (repeat constructor; simpl; intuition discriminate);
    intros i Hi; simpl in Hi; intuition lia.
Qed.

Lemma referential_referenced_example : referential (referenced_example true).
Proof.
  intros t Ht. simpl in Ht. destruct Ht as [<-|[<-|[]]]; simpl; tauto.
Qed.

Lemma history_is_complete_witness :
  exists rows,
    outcome get_transactions (referenced_example true) "" = inr rows
    /\ List.length rows = 2%nat.
Proof.
  destruct (history_is_complete (referenced_example true) ""
              keyed_referenced_example referential_referenced_example)
    as (rows & H & _ & L).
  exists rows. split; [exact H|exact L].
Defined.

Lemma in_joined_full (types : list CartridgeType.row) (t : Transaction.row)
    (r : History.row) :
  In r (joined types t) ->
  exists ct, In ct types
             /\ Transaction.cartridge_type_id t = CartridgeType.id ct
             /\ History.Type_de_cartouche r = CartridgeType.name ct
             /\ History.ID r = Transaction.id t
             /\ History.Date r = Transaction.date t
             /\ History.Couleur r = Transaction.color t
             /\ History.Poids_mesure r = Transaction.measured_weight t
             /\ History.Masse_de_gaz r = Transaction.gas_mass t
             /\ History.Gaz_manquant r = Transaction.missing_gas t
             /\ History.Butane_a_ajouter r = Transaction.butane_to_add t
             /\ History.Propane_a_ajouter r = Transaction.propane_to_add t
             /\ History.Nom_du_client r = Transaction.client_name t.
Proof.
  unfold joined. intro H. apply in_map_iff in H. destruct H as (ct & <- & Hct).
  apply filter_In in Hct. destruct Hct as [Hin Heq]. apply Z.eqb_eq in Heq.
  exists ct. repeat split; assumption.
Qed.

(** X12.  The name in the history is read at listing time, the color is
    the one stored with the transaction: after [update_cartridge_type] every
    row of the history still carries its transaction's color, and carries
    the new name when the update succeeded and the transaction refers to the
    updated type; after an update that raised, the history is what it
    was. *)
Theorem history_after_update_cartridge_type (d : database) (now : string) (i : Z)
    (n : string) (f e : float) (c : string) (b p : float) :
  let call := update_cartridge_type i n f e c b p in
  exists rows,
    outcome get_transactions (committed call d now) now = inr rows
    /\ (forall r, In r rows ->
          exists t, In t (transactions d)
                    /\ History.ID r = Transaction.id t
                    /\ History.Couleur r = Transaction.color t
                    /\ (Transaction.cartridge_type_id t = i ->
                        outcome call d now = inr tt ->
                        History.Type_de_cartouche r = n))
    /\ (forall x, outcome call d now = inl x ->
                  outcome get_transactions d now = inr rows).
Proof.
  intro call. subst call.
  destruct (stored_all_four d f e b p) as [[x E]|(f' & e' & b' & p' & E)].
  - assert (C : committed (update_cartridge_type i n f e c b p) d now = d).
    { unfold committed. rewrite (update_cartridge_type_raises _ _ _ _ _ _ _ _ _ _ E).
      reflexivity. }
    assert (O : outcome (update_cartridge_type i n f e c b p) d now = inl x).
    { unfold outcome. rewrite (update_cartridge_type_raises _ _ _ _ _ _ _ _ _ _ E).
      reflexivity. }
    rewrite C, O. eexists. split; [apply history_rows|].
    split; [|intros; apply history_rows].
    intros r Hr. apply in_order_by_date_desc, in_flat_map in Hr.
    destruct Hr as (t & Ht & Hr). apply in_joined_full in Hr.
    destruct Hr as (ct & Hct & Eref & Ename & Eid & _ & Ecol & _).
    exists t. split; [exact Ht|]. split; [exact Eid|]. split; [exact Ecol|].
    intros _ N. discriminate N.
  - assert (O : outcome (update_cartridge_type i n f e c b p) d now = inr tt).
    { unfold outcome. rewrite (update_cartridge_type_runs _ _ _ _ _ _ _ _ _ _ _ _ _ E).
      reflexivity. }
    rewrite O. unfold committed.
    rewrite (update_cartridge_type_runs _ _ _ _ _ _ _ _ _ _ _ _ _ E).
    cbn [fst snd durable get_connection].
    eexists. split; [apply history_rows|]. split; [|intros x N; discriminate N].
    intros r Hr. apply in_order_by_date_desc, in_flat_map in Hr.
    destruct Hr as (t & Ht & Hr). apply in_joined_full in Hr.
    destruct Hr as (ct & Hct & Eref & Ename & Eid & _ & Ecol & _).
    cbn [with_cartridge_types cartridge_types transactions] in Ht, Hct.
    exists t. split; [exact Ht|]. split; [exact Eid|]. split; [exact Ecol|].
    intros Ei _. apply (Permutation_in _ (rewritten_perm _ _ _)) in Hct.
    apply in_map_iff in Hct. destruct Hct as (ct0 & <- & _).
    destruct (Z.eqb_spec (CartridgeType.id ct0) i) as [E0|E0].
    + exact Ename.
    + exfalso. apply E0. simpl in Eref. congruence.
Qed.

(** X13.  After [update_transaction] every row of the history comes from a
    transaction and an existing type: when the update succeeded, a row of the
    edited transaction shows the new date and client name and what REAL gives
    back for the five new reals, with the stored color and the type's name; a
    row of any other transaction is as it was; after an update that raised,
    the history is what it was. *)
Theorem history_after_update_transaction (d : database) (now : string) (i : Z)
    (nd : string) (w g m b p : float) (n : string) :
  let call := update_transaction i nd w g m b p n in
  exists rows,
    outcome get_transactions (committed call d now) now = inr rows
    /\ (forall r, In r rows ->
          exists t ct, In t (transactions d) /\ In ct (cartridge_types d)
            /\ Transaction.cartridge_type_id t = CartridgeType.id ct
            /\ History.ID r = Transaction.id t
            /\ History.Type_de_cartouche r = CartridgeType.name ct
            /\ History.Couleur r = Transaction.color t
            /\ (Transaction.id t = i -> outcome call d now = inr tt ->
                History.Date r = nd
                /\ stored_all d [w; g; m; b; p]
                   = ok [History.Poids_mesure r; History.Masse_de_gaz r;
                         History.Gaz_manquant r; History.Butane_a_ajouter r;
                         History.Propane_a_ajouter r]
                /\ History.Nom_du_client r = Some n)
            /\ (Transaction.id t <> i -> In r (joined (cartridge_types d) t)))
    /\ (forall x, outcome call d now = inl x ->
                  outcome get_transactions d now = inr rows).
Proof.
  intro call. subst call.
  destruct (stored_all_five d w g m b p) as [[x E]|(w' & g' & m' & b' & p' & E)].
  - assert (C : committed (update_transaction i nd w g m b p n) d now = d).
    { unfold committed. rewrite (update_transaction_raises _ _ _ _ _ _ _ _ _ _ _ E).
      reflexivity. }
    assert (O : outcome (update_transaction i nd w g m b p n) d now = inl x).
    { unfold outcome. rewrite (update_transaction_raises _ _ _ _ _ _ _ _ _ _ _ E).
      reflexivity. }
    rewrite C, O. eexists. split; [apply history_rows|].
    split; [|intros; apply history_rows].
    intros r Hr. apply in_order_by_date_desc, in_flat_map in Hr.
    destruct Hr as (t & Ht & Hr).
    pose proof (in_joined_full _ _ _ Hr)
      as (ct & Hct & Eref & Ename & Eid & Ed & Ecol & _).
    exists t, ct. repeat (split; [assumption|]).
    split; [intros _ N; discriminate N|]. intros _. exact Hr.
  - assert (O : outcome (update_transaction i nd w g m b p n) d now = inr tt).
    { unfold outcome. rewrite (update_transaction_runs _ _ _ _ _ _ _ _ _ _ _ _ _ _ _ E).
      reflexivity. }
    rewrite O. unfold committed.
    rewrite (update_transaction_runs _ _ _ _ _ _ _ _ _ _ _ _ _ _ _ E).
    cbn [fst snd durable get_connection].
    eexists. split; [apply history_rows|]. split; [|intros x N; discriminate N].
    intros r Hr. apply in_order_by_date_desc, in_flat_map in Hr.
    destruct Hr as (t' & Ht' & Hr).
    cbn [with_transactions cartridge_types transactions] in Ht', Hr.
    apply (Permutation_in _ (rewritten_perm _ _ _)) in Ht'.
    apply in_map_iff in Ht'. destruct Ht' as (t & Et & Ht).
    pose proof (in_joined_full _ _ _ Hr)
      as (ct & Hct & Eref & Ename & Eid & Ed & Ecol & Ew & Eg & Em & Eb & Ep & En).
    exists t, ct. split; [exact Ht|]. split; [exact Hct|].
    destruct (Z.eqb_spec (Transaction.id t) i) as [Ei|Ei]; subst t'.
    + split; [exact Eref|]. split; [exact Eid|]. split; [exact Ename|].
      split; [exact Ecol|]. split; [|intro N; contradiction].
      intros _ _. split; [exact Ed|]. split; [|exact En].
      rewrite Ew, Eg, Em, Eb, Ep. exact E.
    + split; [exact Eref|]. split; [exact Eid|]. split; [exact Ename|].
      split; [exact Ecol|]. split; [intro N; contradiction|].
      intros _. exact Hr.
Qed.

(* ------------------------------------------------------------------ *)
(** * The page "Transaction": selection *)

Lemma selected_row_first (l1 l2 : list CartridgeType.row) (r : CartridgeType.row) :
  (forall x, In x l1 -> CartridgeType.name x <> CartridgeType.name r) ->
  selected_row (l1 ++ r :: l2) (CartridgeType.name r) = ok r.
Proof.
  intro H. unfold selected_row. rewrite filter_app.
  rewrite (filter_none _ l1).
  - simpl. rewrite String.eqb_refl. reflexivity.
  - intros x Hx. apply String.eqb_neq. apply H. exact Hx.
Qed.

Lemma first_with_name (df : list CartridgeType.row) (n : string) :
  In n (map CartridgeType.name df) ->
  exists l1 r l2, df = (l1 ++ r :: l2)%list /\ CartridgeType.name r = n
                  /\ forall x, In x l1 -> CartridgeType.name x <> n.
Proof.
  induction df as [|x df IH]; simpl; intro H; [contradiction|].
  destruct (String.eqb_spec (CartridgeType.name x) n) as [E|E].
  - exists [], x, df. repeat split; [exact E|]. intros y [].
  - destruct H as [H|H]; [contradiction|].
    destruct (IH H) as (l1 & r & l2 & -> & Er & Hl).
    exists (x :: l1), r, l2. repeat split; [exact Er|].
    intros y [<-|Hy]; [exact E|apply Hl, Hy].
Qed.

(** X14.  The page selects by name: for the name of any row of the
    catalog the selection succeeds and is the first row with that name, so a
    later type with the same name cannot be selected; when the names are
    distinct it is the row itself. *)
Theorem selection_takes_the_first (df : list CartridgeType.row) (r : CartridgeType.row) :
  In r df ->
  exists l1 r0 l2,
    selected_row df (CartridgeType.name r) = ok r0
    /\ df = (l1 ++ r0 :: l2)%list
    /\ CartridgeType.name r0 = CartridgeType.name r
    /\ (forall x, In x l1 -> CartridgeType.name x <> CartridgeType.name r)
    /\ (NoDup (map CartridgeType.name df) -> r0 = r).
Proof.
  intro Hr.
  destruct (first_with_name df (CartridgeType.name r) (in_map _ _ _ Hr))
    as (l1 & r0 & l2 & -> & E & Hl).
  exists l1, r0, l2. split.
  - rewrite <- E. apply selected_row_first. intros x Hx. rewrite E. apply Hl, Hx.
  - split; [reflexivity|]. split; [exact E|]. split; [exact Hl|].
    intro N. apply in_app_or in Hr. destruct Hr as [Hr|[Hr|Hr]].
    + exfalso. apply (Hl r Hr). reflexivity.
    + exact Hr.
    + exfalso. rewrite map_app in N. simpl in N. apply NoDup_remove_2 in N.
      apply N. apply in_or_app. right. rewrite E. apply in_map. exact Hr.
Qed.

Lemma selection_takes_the_first_witness :
  In namesake_type [scenario_type; namesake_type]
  /\ exists l1 r0 l2,
       selected_row [scenario_type; namesake_type] (CartridgeType.name namesake_type)
       = ok r0
       /\ [scenario_type; namesake_type] = (l1 ++ r0 :: l2)%list
       /\ CartridgeType.name r0 = "Type A".
Proof.
  assert (H : In namesake_type [scenario_type; namesake_type]).
  { right. left. reflexivity. }
  split; [exact H|].
  destruct (selection_takes_the_first [scenario_type; namesake_type] namesake_type H)
    as (l1 & r0 & l2 & H1 & H2 & H3 & _).
  exists l1, r0, l2. split; [exact H1|]. split; [exact H2|exact H3].
Defined.

(** The namesake is out of reach: its name selects the first type. *)
Lemma namesake_is_not_selected :
  selected_row [scenario_type; namesake_type] (CartridgeType.name namesake_type)
  = ok scenario_type.
Proof. reflexivity. Qed.

Lemma nouvelle_transaction_with_types (d : database) (now : string)
    (n c : string) (w : float) (button : bool) :
  cartridge_types d <> [] ->
  ~ In no_type_message (page (snd (nouvelle_transaction n c w button (get_connection d now)))).
Proof.
  intro H. unfold nouvelle_transaction, bind.
  cbn [get_cartridge_types execute mogrify placeholders List.length Nat.ltb Nat.leb
       run ok session get_connection durable page clock].
  destruct (cartridge_types d) as [|r l] eqn:E; [contradiction|].
  destruct (selected_row (r :: l) n) as [e|s]; [simpl; tauto|].
  destruct button.
  - unfold calculer_et_enregistrer. destruct (compute_fill s w); simpl;
      unfold no_type_message; intuition discriminate.
  - simpl. unfold no_type_message. intuition discriminate.
Qed.

(** X15.  The message "Aucun type de cartouche disponible" is shown, alone
    and without any write, when the catalog is empty; run after the seeding,
    as [main] does, the page never shows it, because a start always leaves
    a catalog with at least one type. *)
Theorem catalog_is_never_empty_on_the_page (d : database) (now : string)
    (n c : string) (w : float) (button : bool) :
  cartridge_types (startup now d) <> []
  /\ ~ In no_type_message
       (rendered (add_default_cartridge_types ;; nouvelle_transaction n c w button)%app
          d now)
  /\ (cartridge_types d = [] ->
      rendered (nouvelle_transaction n c w button) d now = [no_type_message]
      /\ committed (nouvelle_transaction n c w button) d now = d).
Proof.
  split; [|split].
  - destruct (cartridge_types d) eqn:E.
    + rewrite (startup_on_empty d now E). discriminate.
    + rewrite startup_on_inhabited; congruence.
  - unfold rendered. destruct (cartridge_types d) eqn:E.
    + erewrite bind_run by (apply add_default_on_empty, E).
      apply (nouvelle_transaction_with_types (seeded d) now). discriminate.
    + erewrite bind_run by (apply add_default_on_inhabited; congruence).
      apply nouvelle_transaction_with_types. congruence.
  - intro E. unfold rendered, committed, nouvelle_transaction, bind.
    cbn [get_cartridge_types execute mogrify placeholders List.length Nat.ltb Nat.leb
         run ok session get_connection durable page clock].
    rewrite E. split; reflexivity.
Qed.

(* ------------------------------------------------------------------ *)
(** * Binary64 facts: signs of differences and products *)

Local Open Scope Z_scope.

Lemma binary_round_aux_not_negative (s : bool) (m e : Z) (l : location) :
  SFltb (binary_round_aux prec emax s m e l) (S754_zero false) = true -> s = true.
Proof.
  unfold binary_round_aux.
  destruct (shr_fexp prec emax m e l) as [mrs' e'].
  destruct (shr_fexp prec emax _ e' loc_Exact) as [mrs'' e''].
  destruct (shr_m mrs''); try discriminate.
  destruct (e'' <=? emax - prec); destruct s; (reflexivity || discriminate).
Qed.

Lemma SFmul_not_negative (x y : spec_float) :
  SFltb x (S754_zero false) = false -> SFltb y (S754_zero false) = false ->
  SFltb (SF64mul x y) (S754_zero false) = false.
Proof.
  intros Hx Hy.
  destruct x as [sx|sx| |sx mx ex], y as [sy|sy| |sy my ey];
    try reflexivity;
    try (destruct sx; try discriminate Hx; destruct sy; try discriminate Hy; reflexivity).
  destruct sx; [discriminate Hx|]. destruct sy; [discriminate Hy|].
  unfold SF64mul, SFmul. simpl xorb.
  destruct (SFltb (binary_round_aux prec emax false (Z.pos (mx * my)) (ex + ey) loc_Exact)
              (S754_zero false)) eqn:E; [|reflexivity].
  apply binary_round_aux_not_negative in E. discriminate E.
Qed.

Lemma binary_round_aux_positive (s : bool) (m e : Z) (l : location) :
  0 < m -> emin <= e ->
  SFltb (S754_zero false) (binary_round_aux prec emax s m e l) = negb s.
Proof.
  intros Hm He. unfold binary_round_aux.
  pose proof (shr_fexp_positive m e l Hm He) as [H1 H2].
  destruct (shr_fexp prec emax m e l) as [mrs' e']. simpl in H1, H2.
  pose proof (round_nearest_even_positive (shr_m mrs') (loc_of_shr_record mrs') H1) as H3.
  pose proof (shr_fexp_positive _ e' loc_Exact H3 H2) as [H4 _].
  destruct (shr_fexp prec emax _ e' loc_Exact) as [mrs'' e'']. simpl in H4.
  destruct (shr_m mrs''); try lia.
  destruct (e'' <=? emax - prec); destruct s; reflexivity.
Qed.

Lemma binary_normalize_positive (m e : Z) :
  emin <= e ->
  SFltb (S754_zero false) (binary_normalize prec emax m e false) = (0 <? m).
Proof.
  intro He. destruct m as [|p|p]; simpl binary_normalize.
  - reflexivity.
  - unfold binary_round.
    pose proof (shl_align_exponent p e (fexp prec emax (Z.pos (digits2_pos p) + e))) as Hs.
    destruct (shl_align p e _) as [mz ez]. simpl in Hs.
    rewrite binary_round_aux_positive; [reflexivity|lia|].
    unfold fexp in Hs. lia.
  - unfold binary_round.
    pose proof (shl_align_exponent p e (fexp prec emax (Z.pos (digits2_pos p) + e))) as Hs.
    destruct (shl_align p e _) as [mz ez]. simpl in Hs.
    rewrite binary_round_aux_positive; [reflexivity|lia|].
    unfold fexp in Hs. lia.
Qed.

Lemma SFsub_positive (x y : spec_float) :
  valid_binary x = true -> valid_binary y = true ->
  SFltb (S754_zero false) (SF64sub x y) = SFltb y x.
Proof.
  intros Vx Vy.
  destruct x as [sx|sx| |sx mx ex], y as [sy|sy| |sy my ey];
    try reflexivity;
    try (destruct sx; reflexivity);
    try (destruct sy; reflexivity);
    try (destruct sx, sy; reflexivity).
  simpl in Vx, Vy.
  unfold SF64sub, SFsub.
  pose proof (bounded_range _ _ Vx) as (Lx & _). pose proof (bounded_range _ _ Vy) as (Ly & _).
  rewrite binary_normalize_positive by lia.
  rewrite !shl_align_value by lia.
  pose proof (compare_aligned my mx ey ex Vy Vx) as C.
  rewrite (Z.min_comm ey ex) in C.
  set (X := Z.pos mx * 2 ^ (ex - Z.min ex ey)) in *.
  set (Y := Z.pos my * 2 ^ (ey - Z.min ex ey)) in *.
  assert (0 < X) by (unfold X; apply Z.mul_pos_pos; [lia|apply Z.pow_pos_nonneg; lia]).
  assert (0 < Y) by (unfold Y; apply Z.mul_pos_pos; [lia|apply Z.pow_pos_nonneg; lia]).
  unfold SFltb, SFcompare.
  destruct sx, sy; simpl cond_Zopp.
  - revert C. destruct (ey ?= ex), (Z.compare_spec Y X); intro C;
      try discriminate C; rewrite ?C; simpl; lia.
  - destruct (Z.ltb_spec 0 (- X - Y)); [lia|reflexivity].
  - destruct (Z.ltb_spec 0 (X - - Y)); [reflexivity|lia].
  - revert C. destruct (ey ?= ex), (Z.compare_spec Y X); intro C;
      try discriminate C; rewrite ?C; simpl; lia.
Qed.

Local Open Scope float_scope.

Lemma zero_ltb_sub (x y : float) : (0 <? x - y) = (y <? x).
Proof.
  rewrite !ltb_spec, sub_spec.
  change (Prim2SF 0) with (S754_zero false).
  apply SFsub_positive; apply Prim2SF_valid.
Qed.

Lemma mul_not_negative (x y : float) :
  (x <? 0) = false -> (y <? 0) = false -> (x * y <? 0) = false.
Proof.
  rewrite !ltb_spec, mul_spec.
  change (Prim2SF 0) with (S754_zero false).
  apply SFmul_not_negative.
Qed.

Lemma ltb_asym (x y : float) : (x <? y) = true -> (y <? x) = false.
Proof.
  rewrite !ltb_spec. unfold SFltb.
  rewrite (SFcompare_antisym (Prim2SF x) (Prim2SF y)).
  destruct (SFcompare (Prim2SF x) (Prim2SF y)) as [[]|]; simpl; congruence.
Qed.

Lemma max0_not_negative (x : float) : (max0 x <? 0) = false.
Proof.
  unfold max0. destruct (0 <? x) eqn:E; [apply ltb_asym, E|reflexivity].
Qed.

(* ------------------------------------------------------------------ *)
(** * The figures of a fill *)

Lemma ltb_leb (x y : float) : (x <? y) = true -> (x <=? y) = true.
Proof.
  rewrite ltb_spec, leb_spec. unfold SFltb, SFleb.
  destruct (SFcompare (Prim2SF x) (Prim2SF y)) as [[]|]; congruence.
Qed.

Lemma zero_mul_finite (x : float) : finite x = true -> 0 * x = 0 \/ 0 * x = -0.
Proof.
  unfold finite. rewrite andb_true_iff, !ltb_spec. intros [H1 H2].
  change (Prim2SF neg_infinity) with (S754_infinity true) in H1.
  change (Prim2SF infinity) with (S754_infinity false) in H2.
  assert (E : Prim2SF (0 * x) = S754_zero false \/ Prim2SF (0 * x) = S754_zero true).
  { rewrite mul_spec. change (Prim2SF 0) with (S754_zero false).
    destruct (Prim2SF x) as [s|s| |s m e];
      try (destruct s; vm_compute in H1, H2; discriminate);
      try (vm_compute in H1; discriminate).
    - destruct s; [right|left]; reflexivity.
    - destruct s; [right|left]; reflexivity. }
  destruct E as [E|E]; [left|right]; apply Prim2SF_inj; rewrite E; reflexivity.
Qed.

(** X16.  The fill is rejected exactly when the measured weight compares
    below the empty mass; every other weight, one that does not compare
    included, is accepted. *)
Theorem compute_fill_rejects_exactly (t : CartridgeType.row) (w : float) :
  compute_fill t w = None <-> (w <? CartridgeType.empty_mass t) = true.
Proof.
  split; [|apply compute_fill_rejects].
  unfold compute_fill. rewrite sub_ltb_zero.
  destruct (w <? CartridgeType.empty_mass t); [reflexivity|discriminate].
Qed.

(** X17.  For a type whose ratios are not negative, no figure of an
    accepted fill is negative; missing_gas is moreover at least 0, hence
    never NaN. *)
Theorem figures_are_not_negative (t : CartridgeType.row) (w : float) (f : fill) :
  compute_fill t w = Some f ->
  (CartridgeType.butane t <? 0) = false ->
  (CartridgeType.propane t <? 0) = false ->
  (gas_mass f <? 0) = false
  /\ (0 <=? missing_gas f) = true
  /\ (butane_to_add f <? 0) = false
  /\ (propane_to_add f <? 0) = false.
Proof.
  unfold compute_fill.
  destruct (w - CartridgeType.empty_mass t <? 0) eqn:G; [discriminate|].
  intros E Hb Hp. injection E as <-. cbn [gas_mass missing_gas butane_to_add propane_to_add].
  fold (max0 (CartridgeType.full_gas_mass t - (w - CartridgeType.empty_mass t))).
  split; [exact G|].
  split; [|split; apply mul_not_negative; try assumption; apply max0_not_negative].
  unfold max0. destruct (0 <? _) eqn:E; [apply ltb_leb, E|reflexivity].
Qed.

Lemma figures_are_not_negative_witness :
  (gas_mass {| gas_mass := 50; missing_gas := 350;
               butane_to_add := 244.99999999999997; propane_to_add := 105 |} <? 0)
  = false.
Proof.
  apply (figures_are_not_negative scenario_type 250 _ scenario_250 eq_refl eq_refl).
Defined.

(** X18.  The clamp in terms of the masses: when the gas mass is below the
    full gas mass, missing_gas is their positive difference; otherwise it is
    0 and, for finite ratios, both amounts to add are zero. *)
Theorem missing_gas_is_clamped (t : CartridgeType.row) (w : float) (f : fill) :
  compute_fill t w = Some f ->
  ((gas_mass f <? CartridgeType.full_gas_mass t) = true ->
   missing_gas f = CartridgeType.full_gas_mass t - gas_mass f
   /\ (0 <? missing_gas f) = true)
  /\ ((gas_mass f <? CartridgeType.full_gas_mass t) = false ->
      missing_gas f = 0
      /\ (finite (CartridgeType.butane t) = true ->
          butane_to_add f = 0 \/ butane_to_add f = -0)
      /\ (finite (CartridgeType.propane t) = true ->
          propane_to_add f = 0 \/ propane_to_add f = -0)).
Proof.
  unfold compute_fill.
  destruct (w - CartridgeType.empty_mass t <? 0) eqn:G; [discriminate|].
  intro E. injection E as <-. cbn [gas_mass missing_gas butane_to_add propane_to_add].
  rewrite zero_ltb_sub.
  destruct (w - CartridgeType.empty_mass t <? CartridgeType.full_gas_mass t) eqn:C.
  - split; [|discriminate]. intros _. split; [reflexivity|].
    rewrite zero_ltb_sub. exact C.
  - split; [discriminate|]. intros _. split; [reflexivity|].
    split; apply zero_mul_finite.
Qed.

Lemma missing_gas_is_clamped_witness :
  compute_fill scenario_type 650
  = Some {| gas_mass := 450; missing_gas := 0; butane_to_add := 0; propane_to_add := 0 |}
  /\ missing_gas {| gas_mass := 450; missing_gas := 0;
                    butane_to_add := 0; propane_to_add := 0 |} = 0.
Proof.
  assert (E : compute_fill scenario_type 650
              = Some {| gas_mass := 450; missing_gas := 0;
                        butane_to_add := 0; propane_to_add := 0 |}) by reflexivity.
  split; [exact E|].
  apply (proj2 (missing_gas_is_clamped scenario_type 650 _ E)). reflexivity.
Defined.

(* ------------------------------------------------------------------ *)
(** * Binary64 facts: the error of a rounding

    A product and a sum of floats are the exact product and sum, rounded.
    [round_error] bounds what one rounding loses; [mul_error] and [add_error]
    state it for the product and the sum of two floats that are not
    negative, in terms of the numbers they stand for. *)

Local Open Scope Z_scope.

Lemma round_nearest_even_cases (m : Z) (l : location) :
  round_nearest_even m l = m \/ round_nearest_even m l = m + 1.
Proof.
  unfold round_nearest_even. destruct l as [|[]]; auto. destruct (Z.even m); auto.
Qed.

Lemma digits2_pos_unique (p : positive) (d : Z) :
  2 ^ (d - 1) <= Z.pos p < 2 ^ d -> 0 < d -> Z.pos (digits2_pos p) = d.
Proof.
  intros [L U] Hd. pose proof (digits2_pos_bounds p) as [L' U'].
  destruct (Z.lt_trichotomy (Z.pos (digits2_pos p)) d) as [C|[C|C]]; [|exact C|].
  - exfalso. assert (2 ^ Z.pos (digits2_pos p) <= 2 ^ (d - 1))
      by (apply Z.pow_le_mono_r; lia). lia.
  - exfalso. assert (2 ^ d <= 2 ^ (Z.pos (digits2_pos p) - 1))
      by (apply Z.pow_le_mono_r; lia). lia.
Qed.

Lemma digits2_pos_le (p : positive) (d : Z) :
  Z.pos p < 2 ^ d -> 0 <= d -> Z.pos (digits2_pos p) <= d.
Proof.
  intros U Hd. pose proof (digits2_pos_bounds p) as [L' U'].
  destruct (Z.le_gt_cases (Z.pos (digits2_pos p)) d) as [C|C]; [exact C|].
  exfalso. assert (2 ^ d <= 2 ^ (Z.pos (digits2_pos p) - 1))
    by (apply Z.pow_le_mono_r; lia). lia.
Qed.

(** The second shift of [binary_round_aux] loses nothing: the mantissa it
    is given has at most [prec] digits, or is [2^prec]. *)
Lemma shr_fexp_exact (m1 e1 : Z) :
  0 <= m1 <= 2 ^ prec -> emin <= e1 ->
  exists k, 0 <= k
            /\ snd (shr_fexp prec emax m1 e1 loc_Exact) = e1 + k
            /\ shr_m (fst (shr_fexp prec emax m1 e1 loc_Exact)) * 2 ^ k = m1.
Proof.
  intros [L U] He. unfold shr_fexp, shr.
  destruct m1 as [|p|p]; [| |lia].
  - simpl Zdigits2.
    assert (X : fexp prec emax (0 + e1) - e1 <= 0).
    { unfold fexp. unfold prec at 1. lia. }
    destruct (fexp prec emax (0 + e1) - e1) eqn:E; try lia;
      exists 0; simpl; repeat split; lia.
  - simpl Zdigits2.
    destruct (Z.eq_dec (Z.pos p) (2 ^ prec)) as [Ep|Ep].
    + assert (D : Z.pos (digits2_pos p) = prec + 1).
      { apply digits2_pos_unique; [|unfold prec; lia].
        replace (prec + 1 - 1) with prec by lia. rewrite Ep.
        split; [lia|]. apply Z.pow_lt_mono_r; unfold prec; lia. }
      rewrite D. unfold fexp.
      replace (Z.max (prec + 1 + e1 - prec) emin - e1) with 1 by lia.
      exists 1. split; [lia|]. split; [reflexivity|].
      cbn [fst]. rewrite iter_shr_1_m by (simpl; lia).
      cbn [shr_record_of_loc shr_m]. rewrite Ep. unfold prec. reflexivity.
    + assert (D : Z.pos (digits2_pos p) <= prec).
      { apply digits2_pos_le; [lia|unfold prec; lia]. }
      assert (X : fexp prec emax (Z.pos (digits2_pos p) + e1) - e1 <= 0).
      { unfold fexp. lia. }
      destruct (fexp prec emax (Z.pos (digits2_pos p) + e1) - e1) eqn:E; try lia;
        exists 0; simpl; repeat split; lia.
Qed.

(** The error of one rounding, in units of [2^e]: for [0 < m], the float
    [binary_round_aux] makes of [m * 2^e] is off by at most [m * 2^(1-prec)],
    or, below the smallest exponent, by at most [2^emin]. *)
Lemma round_error (s : bool) (m e : Z) :
  0 < m ->
  match binary_round_aux prec emax s m e loc_Exact with
  | S754_finite s' m' e' =>
      s' = s /\ e <= e'
      /\ (Z.abs (Z.pos m' * 2 ^ (e' - e) - m) * 2 ^ (prec - 1) <= m
          \/ (e < emin /\ Z.abs (Z.pos m' * 2 ^ (e' - e) - m) <= 2 ^ (emin - e)))
  | S754_zero _ => e < emin /\ m <= 2 ^ (emin - e)
  | S754_infinity _ => True
  | S754_nan => False
  end.
Proof.
  intro Hm. unfold binary_round_aux.
  (* the first shift *)
  assert (F : exists q e1 n,
             shr_fexp prec emax m e loc_Exact = (q, e1) /\ 0 <= n /\ e1 = e + n
             /\ emin <= e1
             /\ let m1 := round_nearest_even (shr_m q) (loc_of_shr_record q) in
                0 <= m1 <= 2 ^ prec
                /\ (Z.abs (m1 * 2 ^ n - m) * 2 ^ (prec - 1) <= m
                    \/ (e < emin /\ Z.abs (m1 * 2 ^ n - m) <= 2 ^ (emin - e)))).
  { unfold shr_fexp, shr. destruct m as [|p|p]; try lia. simpl Zdigits2.
    pose proof (digits2_pos_bounds p) as [DL DU].
    set (dM := Z.pos (digits2_pos p)) in *.
    destruct (Z.le_gt_cases (fexp prec emax (dM + e) - e) 0) as [N|N].
    - (* no shift: the mantissa is kept *)
      exists (shr_record_of_loc (Z.pos p) loc_Exact), e, 0.
      split; [destruct (fexp prec emax (dM + e) - e); try lia; reflexivity|].
      split; [lia|]. split; [lia|].
      unfold fexp in N. split; [lia|].
      cbn [shr_record_of_loc shr_m loc_of_shr_record round_nearest_even].
      assert (dM <= prec) by lia.
      assert (Z.pos p < 2 ^ prec).
      { apply Z.lt_le_trans with (2 ^ dM); [exact DU|].
        apply Z.pow_le_mono_r; lia. }
      split; [lia|].
      left. rewrite Z.pow_0_r. replace (Z.pos p * 1 - Z.pos p) with 0 by lia.
      rewrite Z.abs_0. lia.
    - (* a shift by n *)
      destruct (fexp prec emax (dM + e) - e) as [|n|n] eqn:E; try lia.
      eexists _, _, (Z.pos n). split; [reflexivity|]. split; [lia|]. split; [lia|].
      unfold fexp in E. split; [lia|].
      rewrite iter_shr_1_m by (simpl; lia). simpl shr_m.
      set (q := Z.pos p / 2 ^ Z.pos n).
      assert (P : 0 < 2 ^ Z.pos n) by (apply Z.pow_pos_nonneg; lia).
      assert (Q1 : q * 2 ^ Z.pos n <= Z.pos p).
      { unfold q. rewrite Z.mul_comm. apply Z.mul_div_le. exact P. }
      assert (Q2 : Z.pos p < (q + 1) * 2 ^ Z.pos n).
      { unfold q. rewrite Z.mul_comm.
        replace (Z.pos p / 2 ^ Z.pos n + 1) with (Z.succ (Z.pos p / 2 ^ Z.pos n)) by lia.
        apply Z.mul_succ_div_gt. exact P. }
      assert (Q0 : 0 <= q) by (apply Z.div_pos; lia).
      set (l := loc_of_shr_record _).
      assert (R : round_nearest_even q l = q \/ round_nearest_even q l = q + 1)
        by apply round_nearest_even_cases.
      cbv zeta.
      assert (A : Z.abs (round_nearest_even q l * 2 ^ Z.pos n - Z.pos p) <= 2 ^ Z.pos n).
      { destruct R as [-> | ->]; nia. }
      destruct (Z.le_gt_cases emin (dM + e - prec)) as [N'|S].
      + (* normal *)
        assert (En : Z.pos n = dM - prec) by lia.
        assert (PP : 2 ^ dM = 2 ^ prec * 2 ^ Z.pos n).
        { rewrite <- Z.pow_add_r by (unfold prec; lia). f_equal. lia. }
        assert (PQ : 2 ^ (dM - 1) = 2 ^ (prec - 1) * 2 ^ Z.pos n).
        { rewrite <- Z.pow_add_r by (unfold prec; lia). f_equal. lia. }
        assert (P1 : 0 < 2 ^ (prec - 1)) by (apply Z.pow_pos_nonneg; unfold prec; lia).
        assert (QL : 2 ^ (prec - 1) <= q) by nia.
        assert (QU : q < 2 ^ prec) by nia.
        split; [destruct R as [-> | ->]; lia|].
        left. nia.
      + (* below the smallest exponent *)
        assert (En : Z.pos n = emin - e) by lia.
        assert (QU : q < 2 ^ (prec - 1)).
        { assert (2 ^ dM <= 2 ^ (prec - 1) * 2 ^ Z.pos n).
          { rewrite <- Z.pow_add_r by (unfold prec; lia).
            apply Z.pow_le_mono_r; lia. }
          assert (P1 : 0 < 2 ^ (prec - 1)) by (apply Z.pow_pos_nonneg; unfold prec; lia).
          nia. }
        assert (2 ^ (prec - 1) < 2 ^ prec)
          by (apply Z.pow_lt_mono_r; unfold prec; lia).
        split; [destruct R as [-> | ->]; lia|].
        right. split; [lia|]. rewrite <- En. exact A. }
  destruct F as (q & e1 & n & -> & Hn & -> & He1 & B & A).
  cbv zeta in *.
  set (m1 := round_nearest_even (shr_m q) (loc_of_shr_record q)) in *.
  destruct (shr_fexp_exact m1 (e + n) B He1) as (k & Hk & Ek & Vk).
  destruct (shr_fexp prec emax m1 (e + n) loc_Exact) as [mrs'' e''].
  simpl in Ek, Vk. subst e''.
  assert (Pk : 0 < 2 ^ k) by (apply Z.pow_pos_nonneg; lia).
  destruct (shr_m mrs'') as [|m'|m'] eqn:M.
  - (* rounded to zero *)
    assert (m1 = 0) by lia.
    destruct A as [A|[A1 A2]].
    + exfalso. replace (m1 * 2 ^ n - m) with (- m) in A by lia.
      rewrite Z.abs_opp, Z.abs_eq in A by lia.
      assert (2 ^ 1 <= 2 ^ (prec - 1)) by (apply Z.pow_le_mono_r; unfold prec; lia).
      change (2 ^ 1) with 2 in *. nia.
    + split; [exact A1|].
      replace (m1 * 2 ^ n - m) with (- m) in A2 by lia.
      rewrite Z.abs_opp, Z.abs_eq in A2 by lia. exact A2.
  - destruct (e + n + k <=? emax - prec); [|exact I].
    split; [reflexivity|]. split; [lia|].
    replace (e + n + k - e) with (k + n) by lia.
    rewrite Z.pow_add_r by lia.
    replace (Z.pos m' * (2 ^ k * 2 ^ n)) with (m1 * 2 ^ n) by (rewrite <- Vk; ring).
    exact A.
  - exfalso. lia.
Qed.

Local Open Scope R_scope.

Lemma powerRZ_two_pos (e : Z) : 0 < powerRZ 2 e.
Proof. apply powerRZ_lt. lra. Qed.

Lemma IZR_pow_two (k : Z) : (0 <= k)%Z -> IZR (2 ^ k) = powerRZ 2 k.
Proof.
  intro H. rewrite <- (Z2Nat.id k H) at 1. rewrite <- pow_IZR.
  destruct k as [|p|p]; [reflexivity| |lia].
  simpl. reflexivity.
Qed.

Lemma powerRZ_two_add (a b : Z) : powerRZ 2 (a + b) = powerRZ 2 a * powerRZ 2 b.
Proof. apply powerRZ_add. lra. Qed.

(** One rounding of a positive number: the result is off by at most
    [2^-52] of the number, plus [2^-1074] below the smallest exponent. *)
Lemma round_error_R (m e : Z) :
  (0 < m)%Z ->
  match binary_round_aux prec emax false m e loc_Exact with
  | S754_infinity _ | S754_nan => True
  | r =>
      Rabs (SF2R r - IZR m * powerRZ 2 e)
      <= IZR m * powerRZ 2 e * powerRZ 2 (-52)
         + (if (e <? emin)%Z then powerRZ 2 (-1074) else 0)
  end.
Proof.
  intro Hm. pose proof (round_error false m e Hm) as H.
  pose proof (powerRZ_two_pos e) as Pe.
  assert (Im : 0 < IZR m) by (apply IZR_lt; exact Hm).
  destruct (binary_round_aux prec emax false m e loc_Exact) as [s|s| |s m' e']; try exact I.
  - (* zero *)
    destruct H as [H1 H2]. simpl SF2R.
    apply Z.ltb_lt in H1 as H1'. rewrite H1'.
    replace (0 - IZR m * powerRZ 2 e) with (- (IZR m * powerRZ 2 e)) by ring.
    rewrite Rabs_Ropp, Rabs_pos_eq by nra.
    assert (IZR m * powerRZ 2 e <= powerRZ 2 (-1074)).
    { apply IZR_le in H2. rewrite IZR_pow_two in H2 by lia.
      replace (-1074)%Z with ((emin - e) + e)%Z by (unfold emin, emax, prec; lia).
      rewrite powerRZ_two_add. nra. }
    assert (0 <= IZR m * powerRZ 2 e * powerRZ 2 (-52)).
    { repeat apply Rmult_le_pos; try lra; apply Rlt_le, powerRZ_two_pos. }
    lra.
  - (* finite *)
    destruct H as (-> & He & H). simpl SF2R.
    set (d := (Z.pos m' * 2 ^ (e' - e) - m)%Z) in *.
    assert (E : IZR (Z.pos m') * powerRZ 2 e' - IZR m * powerRZ 2 e
                = IZR d * powerRZ 2 e).
    { unfold d. rewrite minus_IZR, mult_IZR, IZR_pow_two by lia.
      replace e' with ((e' - e) + e)%Z at 1 by lia.
      rewrite powerRZ_two_add. ring. }
    rewrite E, Rabs_mult, (Rabs_pos_eq (powerRZ 2 e)) by lra.
    rewrite <- abs_IZR.
    assert (A : 0 <= (if (e <? emin)%Z then powerRZ 2 (-1074) else 0)).
    { destruct (e <? emin)%Z; [apply Rlt_le, powerRZ_two_pos|lra]. }
    destruct H as [H|[H1 H2]].
    + apply IZR_le in H. rewrite mult_IZR, IZR_pow_two in H by (unfold prec; lia).
      change (prec - 1)%Z with 52%Z in H.
      assert (X : IZR (Z.abs d) <= IZR m * powerRZ 2 (-52)).
      { assert (Y : powerRZ 2 52 * powerRZ 2 (-52) = 1).
        { rewrite <- powerRZ_two_add. reflexivity. }
        pose proof (powerRZ_two_pos (-52)) as P.
        replace (IZR (Z.abs d)) with (IZR (Z.abs d) * powerRZ 2 52 * powerRZ 2 (-52))
          by (rewrite Rmult_assoc, Y; ring).
        apply Rmult_le_compat_r; lra. }
      assert (IZR (Z.abs d) * powerRZ 2 e <= IZR m * powerRZ 2 (-52) * powerRZ 2 e)
        by (apply Rmult_le_compat_r; lra).
      lra.
    + apply Z.ltb_lt in H1 as H1'. rewrite H1'.
      apply IZR_le in H2. rewrite IZR_pow_two in H2 by lia.
      assert (IZR (Z.abs d) * powerRZ 2 e <= powerRZ 2 (emin - e) * powerRZ 2 e)
        by (apply Rmult_le_compat_r; lra).
      replace (-1074)%Z with ((emin - e) + e)%Z by (unfold emin, emax, prec; lia).
      rewrite powerRZ_two_add.
      assert (0 <= IZR m * powerRZ 2 e * powerRZ 2 (-52)).
      { repeat apply Rmult_le_pos; try lra; apply Rlt_le, powerRZ_two_pos. }
      lra.
Qed.

Local Open Scope float_scope.

Lemma finite_spec (x : float) :
  finite x = true ->
  match Prim2SF x with
  | S754_zero _ | S754_finite _ _ _ => True
  | _ => False
  end.
Proof.
  unfold finite. rewrite andb_true_iff, !ltb_spec. intros [H1 H2].
  change (Prim2SF neg_infinity) with (S754_infinity true) in H1.
  change (Prim2SF infinity) with (S754_infinity false) in H2.
  destruct (Prim2SF x) as [s|s| |s m e]; try exact I.
  - destruct s; vm_compute in H1, H2; discriminate.
  - vm_compute in H1. discriminate.
Qed.

Lemma not_negative_spec (x : float) :
  finite x = true -> (x <? 0) = false ->
  match Prim2SF x with
  | S754_zero _ | S754_finite false _ _ => True
  | _ => False
  end.
Proof.
  intros F N. pose proof (finite_spec x F) as H.
  rewrite ltb_spec in N. change (Prim2SF 0) with (S754_zero false) in N.
  destruct (Prim2SF x) as [s|s| |s m e]; try exact H; try exact I.
  destruct s; [discriminate N|exact I].
Qed.

Lemma number_not_negative (x : float) :
  finite x = true -> (x <? 0) = false -> (0 <= number x)%R.
Proof.
  intros F N. pose proof (not_negative_spec x F N) as H. unfold number.
  destruct (Prim2SF x) as [s|s| |s m e]; simpl; try lra; try contradiction.
  destruct s; [contradiction|]. simpl.
  apply Rmult_le_pos; [apply IZR_le; lia|apply Rlt_le, powerRZ_two_pos].
Qed.

Lemma not_negative_number (x : float) :
  finite x = true -> (0 <= number x)%R -> (x <? 0) = false.
Proof.
  intros F N. pose proof (finite_spec x F) as H. unfold number in N.
  rewrite ltb_spec. change (Prim2SF 0) with (S754_zero false).
  destruct (Prim2SF x) as [s|s| |s m e]; try contradiction.
  - destruct s; reflexivity.
  - destruct s; [|reflexivity]. exfalso. simpl in N.
    pose proof (powerRZ_two_pos e).
    assert (IZR (Z.neg m) < 0)%R by (apply IZR_lt; lia). nra.
Qed.

Lemma finite_mul (x y : float) :
  finite (x * y) = true -> finite x = true /\ finite y = true.
Proof.
  intro F. pose proof (finite_spec _ F) as H. rewrite mul_spec in H.
  unfold finite. rewrite !ltb_spec.
  change (Prim2SF neg_infinity) with (S754_infinity true).
  change (Prim2SF infinity) with (S754_infinity false).
  destruct (Prim2SF x) as [sx|sx| |sx mx ex], (Prim2SF y) as [sy|sy| |sy my ey];
    try contradiction; try (destruct sx); try (destruct sy); split; reflexivity.
Qed.

Lemma finite_add (x y : float) :
  finite (x + y) = true -> finite x = true /\ finite y = true.
Proof.
  intro F. pose proof (finite_spec _ F) as H. rewrite add_spec in H.
  unfold finite. rewrite !ltb_spec.
  change (Prim2SF neg_infinity) with (S754_infinity true).
  change (Prim2SF infinity) with (S754_infinity false).
  destruct (Prim2SF x) as [sx|sx| |sx mx ex], (Prim2SF y) as [sy|sy| |sy my ey];
    try contradiction; try (destruct sx); try (destruct sy);
    try contradiction; split; reflexivity.
Qed.

(** A product of floats that are not negative, when it does not overflow. *)
Lemma mul_error (x y : float) :
  finite (x * y) = true -> (x <? 0) = false -> (y <? 0) = false ->
  (Rabs (number (x * y) - number x * number y)
   <= number x * number y * powerRZ 2 (-52) + powerRZ 2 (-1074))%R.
Proof.
  intros F Nx Ny. destruct (finite_mul x y F) as [Fx Fy].
  pose proof (not_negative_spec x Fx Nx) as Hx.
  pose proof (not_negative_spec y Fy Ny) as Hy.
  pose proof (finite_spec _ F) as H.
  unfold number. rewrite mul_spec in *.
  pose proof (powerRZ_two_pos (-1074)) as Pa.
  destruct (Prim2SF x) as [sx|sx| |sx mx ex]; try contradiction;
    destruct (Prim2SF y) as [sy|sy| |sy my ey]; try contradiction;
    try (simpl; rewrite ?Rmult_0_l, ?Rmult_0_r, Rminus_0_r, Rabs_R0; lra).
  destruct sx; [contradiction|]. destruct sy; [contradiction|].
  unfold SF64mul, SFmul in *. simpl xorb in *.
  pose proof (round_error_R (Z.pos (mx * my)) (ex + ey) eq_refl) as E.
  destruct (binary_round_aux prec emax false (Z.pos (mx * my)) (ex + ey) loc_Exact)
    as [s|s| |s m e]; try contradiction.
  - simpl SF2R in *. rewrite Pos2Z.inj_mul, mult_IZR, powerRZ_two_add in E.
    replace (IZR (Z.pos mx) * powerRZ 2 ex * (IZR (Z.pos my) * powerRZ 2 ey))%R
      with (IZR (Z.pos mx) * IZR (Z.pos my) * (powerRZ 2 ex * powerRZ 2 ey))%R by ring.
    destruct (ex + ey <? emin)%Z; lra.
  - simpl SF2R in *. rewrite Pos2Z.inj_mul, mult_IZR, powerRZ_two_add in E.
    replace (IZR (Z.pos mx) * powerRZ 2 ex * (IZR (Z.pos my) * powerRZ 2 ey))%R
      with (IZR (Z.pos mx) * IZR (Z.pos my) * (powerRZ 2 ex * powerRZ 2 ey))%R by ring.
    destruct (ex + ey <? emin)%Z; lra.
Qed.

Lemma shl_align_number (m : positive) (e e' : Z) :
  (IZR (Z.pos (fst (shl_align m e e'))) * powerRZ 2 (snd (shl_align m e e'))
   = IZR (Z.pos m) * powerRZ 2 e)%R.
Proof.
  destruct (Z.le_gt_cases e' e) as [H|H].
  - rewrite shl_align_value, shl_align_exponent by exact H.
    rewrite Z.min_r by exact H.
    rewrite mult_IZR, IZR_pow_two by lia.
    assert (X : powerRZ 2 e = (powerRZ 2 (e - e') * powerRZ 2 e')%R).
    { rewrite <- powerRZ_two_add. f_equal. lia. }
    rewrite X. ring.
  - unfold shl_align. destruct (e' - e)%Z eqn:E; try lia; reflexivity.
Qed.

(** A sum of floats that are not negative, when it does not overflow: no
    underflow term, a sum of floats is exact below the smallest exponent. *)
Lemma add_error (x y : float) :
  finite (x + y) = true -> (x <? 0) = false -> (y <? 0) = false ->
  (Rabs (number (x + y) - (number x + number y))
   <= (number x + number y) * powerRZ 2 (-52))%R.
Proof.
  intros F Nx Ny. destruct (finite_add x y F) as [Fx Fy].
  pose proof (not_negative_spec x Fx Nx) as Hx.
  pose proof (not_negative_spec y Fy Ny) as Hy.
  pose proof (finite_spec _ F) as H.
  pose proof (Prim2SF_valid x) as Vx. pose proof (Prim2SF_valid y) as Vy.
  pose proof (powerRZ_two_pos (-52)) as Pu.
  unfold number. rewrite add_spec in *.
  destruct (Prim2SF x) as [sx|sx| |sx mx ex]; try contradiction;
    destruct (Prim2SF y) as [sy|sy| |sy my ey]; try contradiction.
  - destruct sx, sy; simpl; rewrite Rplus_0_l, Rminus_0_r, Rabs_R0; lra.
  - destruct sy; [contradiction|]. simpl SF64add. simpl SFadd. simpl SF2R.
    rewrite Rplus_0_l, Rminus_diag, Rabs_R0.
    apply Rmult_le_pos; [|lra].
    apply Rmult_le_pos; [apply IZR_le; lia|apply Rlt_le, powerRZ_two_pos].
  - destruct sx; [contradiction|]. simpl SF64add. simpl SFadd. simpl SF2R.
    rewrite Rplus_0_r, Rminus_diag, Rabs_R0.
    apply Rmult_le_pos; [|lra].
    apply Rmult_le_pos; [apply IZR_le; lia|apply Rlt_le, powerRZ_two_pos].
  - destruct sx; [contradiction|]. destruct sy; [contradiction|].
    simpl in Vx, Vy.
    pose proof (bounded_range _ _ Vx) as (Lx & _).
    pose proof (bounded_range _ _ Vy) as (Ly & _).
    unfold SF64add, SFadd in *. cbn [cond_Zopp] in *.
    set (ez := Z.min ex ey) in *.
    pose proof (shl_align_number mx ex ez) as Ax.
    pose proof (shl_align_number my ey ez) as Ay.
    rewrite !shl_align_exponent in Ax, Ay.
    replace (Z.min ex ez) with ez in Ax by (unfold ez; lia).
    replace (Z.min ey ez) with ez in Ay by (unfold ez; lia).
    set (a := fst (shl_align mx ex ez)) in *.
    set (b := fst (shl_align my ey ez)) in *.
    change (Z.pos a + Z.pos b)%Z with (Z.pos (a + b)) in *.
    cbn [binary_normalize] in *. unfold binary_round in *.
    pose proof (shl_align_number (a + b) ez
                  (fexp prec emax (Z.pos (digits2_pos (a + b)) + ez))) as As.
    pose proof (shl_align_exponent (a + b) ez
                  (fexp prec emax (Z.pos (digits2_pos (a + b)) + ez))) as Es.
    destruct (shl_align (a + b) ez _) as [mz ez']. cbn [fst snd] in As, Es.
    assert (Le : (emin <= ez')%Z).
    { rewrite Es. unfold fexp, ez. lia. }
    pose proof (round_error_R (Z.pos mz) ez' eq_refl) as E.
    apply Z.ltb_ge in Le. rewrite Le in E.
    assert (S : (IZR (Z.pos mz) * powerRZ 2 ez'
                 = IZR (Z.pos mx) * powerRZ 2 ex + IZR (Z.pos my) * powerRZ 2 ey)%R).
    { rewrite As, Pos2Z.inj_add, plus_IZR, <- Ax, <- Ay. ring. }
    rewrite S in E. simpl SF2R.
    destruct (binary_round_aux prec emax false (Z.pos mz) ez' loc_Exact)
      as [s|s| |s m e]; try contradiction; lra.
Qed.

(* ------------------------------------------------------------------ *)
(** * The amounts of a fill, up to rounding *)

Local Open Scope R_scope.

Lemma Rabs_bounds (x y : R) : Rabs x <= y -> - y <= x <= y.
Proof. unfold Rabs. destruct (Rcase_abs x); lra. Qed.

(** Five roundings: two products and their sum on one side, a sum and a
    product on the other. *)
Lemma five_roundings (m b p B P S c T u a : R) :
  0 <= m -> 0 <= b -> 0 <= p -> 0 < u <= / 4 -> 0 <= a ->
  Rabs (B - m * b) <= m * b * u + a ->
  Rabs (P - m * p) <= m * p * u + a ->
  Rabs (S - (B + P)) <= (B + P) * u ->
  Rabs (c - (b + p)) <= (b + p) * u ->
  Rabs (T - m * c) <= m * c * u + a ->
  Rabs (S - T) <= 5 * (m * (b + p)) * u + 4 * a.
Proof.
  intros Hm Hb Hp [U0 U1] Ha HB HP HS Hc HT.
  apply Rabs_bounds in HB, HP, HS, Hc, HT.
  set (X := m * (b + p)).
  assert (X0 : 0 <= X) by (unfold X; nra).
  assert (Xu : 0 <= X * u) by nra.
  assert (Xuu : X * u * u <= X * u / 4) by nra.
  assert (au : a * u <= a / 4) by nra.
  assert (BP : - (X * u + 2 * a) <= B + P - X <= X * u + 2 * a) by (unfold X; lra).
  assert (MC : - (X * u) <= m * c - X <= X * u) by (unfold X; nra).
  assert (S1 : (B + P) * u <= X * u + X * u / 4 + a / 2) by nra.
  assert (T1 : m * c * u <= X * u + X * u / 4) by nra.
  apply Rabs_le. fold X. lra.
Qed.

(** Three roundings, when the sum of the ratios is rounded to 1. *)
Lemma three_roundings (m b p B P S u a : R) :
  0 <= m -> 0 <= b -> 0 <= p -> 0 < u <= / 4 -> 0 <= a ->
  Rabs (B - m * b) <= m * b * u + a ->
  Rabs (P - m * p) <= m * p * u + a ->
  Rabs (S - (B + P)) <= (B + P) * u ->
  Rabs (1 - (b + p)) <= (b + p) * u ->
  Rabs (S - m) <= 5 * m * u + 3 * a.
Proof.
  intros Hm Hb Hp [U0 U1] Ha HB HP HS Hc.
  apply Rabs_bounds in HB, HP, HS, Hc.
  set (X := m * (b + p)).
  assert (X0 : 0 <= X) by (unfold X; nra).
  assert (Xu : 0 <= X * u) by nra.
  assert (Xuu : X * u * u <= X * u / 4) by nra.
  assert (au : a * u <= a / 4) by nra.
  assert (BP : - (X * u + 2 * a) <= B + P - X <= X * u + 2 * a) by (unfold X; lra).
  assert (MC : - (X * u) <= m - X <= X * u) by (unfold X; nra).
  assert (S1 : (B + P) * u <= X * u + X * u / 4 + a / 2) by nra.
  assert (XM : X * u <= m * u + X * u / 4) by nra.
  apply Rabs_le. lra.
Qed.

Lemma rounding_unit : 0 < powerRZ 2 (-52) <= / 4.
Proof.
  pose proof (powerRZ_two_pos (-52)) as P. split; [exact P|].
  assert (Y : powerRZ 2 52 * powerRZ 2 (-52) = 1).
  { rewrite <- powerRZ_two_add. reflexivity. }
  assert (L : 4 <= powerRZ 2 52).
  { rewrite <- IZR_pow_two by lia. apply IZR_le. lia. }
  nra.
Qed.

Lemma number_one : number 1 = 1.
Proof.
  unfold number.
  change (Prim2SF 1) with (S754_finite false 4503599627370496 (-52)).
  cbn [SF2R cond_Zopp]. change (Z.pos 4503599627370496) with (2 ^ 52)%Z.
  rewrite IZR_pow_two by lia. rewrite <- powerRZ_two_add. reflexivity.
Qed.

Local Open Scope float_scope.

(** Binary64 is not distributive, but nearly: for floats that are not
    negative, [m * b + m * p] and [m * (b + p)] differ by a few roundings. *)
Lemma sum_of_products (m b p : float) :
  (m <? 0) = false -> (b <? 0) = false -> (p <? 0) = false ->
  finite (m * b + m * p) = true ->
  (finite (m * (b + p)) = true ->
   (Rabs (number (m * b + m * p) - number (m * (b + p)))
    <= 5 * (number m * (number b + number p)) * powerRZ 2 (-52)
       + 4 * powerRZ 2 (-1074))%R)
  /\ (b + p = 1 ->
      (Rabs (number (m * b + m * p) - number m)
       <= 5 * number m * powerRZ 2 (-52) + 3 * powerRZ 2 (-1074))%R).
Proof.
  intros Nm Nb Np FS.
  destruct (finite_add _ _ FS) as [FB FP].
  destruct (finite_mul _ _ FB) as [Fm Fb]. destruct (finite_mul _ _ FP) as [_ Fp].
  pose proof (number_not_negative m Fm Nm) as Rm.
  pose proof (number_not_negative b Fb Nb) as Rb.
  pose proof (number_not_negative p Fp Np) as Rp.
  pose proof (mul_error m b FB Nm Nb) as EB.
  pose proof (mul_error m p FP Nm Np) as EP.
  pose proof (add_error (m * b) (m * p) FS
                (mul_not_negative m b Nm Nb) (mul_not_negative m p Nm Np)) as ES.
  pose proof (powerRZ_two_pos (-1074)) as Pa.
  split.
  - intro FT. destruct (finite_mul _ _ FT) as [_ Fc].
    pose proof (add_error b p Fc Nb Np) as Ec.
    assert (Nc : (b + p <? 0) = false).
    { apply not_negative_number; [exact Fc|].
      apply Rabs_bounds in Ec. pose proof rounding_unit. nra. }
    pose proof (mul_error m (b + p) FT Nm Nc) as ET.
    apply (five_roundings (number m) (number b) (number p) (number (m * b))
             (number (m * p)) _ (number (b + p)) _ (powerRZ 2 (-52)) (powerRZ 2 (-1074)));
      try assumption; [apply rounding_unit|lra].
  - intro E1.
    assert (Fc : finite (b + p) = true) by (rewrite E1; reflexivity).
    pose proof (add_error b p Fc Nb Np) as Ec. rewrite E1, number_one in Ec.
    apply (three_roundings (number m) (number b) (number p) (number (m * b))
             (number (m * p)) _ (powerRZ 2 (-52)) (powerRZ 2 (-1074)));
      try assumption; [apply rounding_unit|lra].
Qed.

(** C8 (as amended).  For every valid fill of a type whose ratios are
    not negative, butane_to_add and propane_to_add are the binary64 products
    of missing_gas by the two ratios, and their sum agrees with
    [missing_gas * (butane + propane)] up to rounding: when neither overflows,
    the two numbers differ by at most
    [5 * 2^-52 * missing_gas * (butane + propane) + 4 * 2^-1074]; when the
    binary64 sum of the ratios is 1, the two amounts add up to missing_gas
    within [5 * 2^-52 * missing_gas + 3 * 2^-1074]. *)
Theorem amounts_add_up_within_rounding (t : CartridgeType.row) (w : float) :
  (CartridgeType.empty_mass t <=? w) = true ->
  (CartridgeType.butane t <? 0) = false ->
  (CartridgeType.propane t <? 0) = false ->
  exists f,
    compute_fill t w = Some f
    /\ butane_to_add f = missing_gas f * CartridgeType.butane t
    /\ propane_to_add f = missing_gas f * CartridgeType.propane t
    /\ (finite (butane_to_add f + propane_to_add f) = true ->
        finite (missing_gas f * (CartridgeType.butane t + CartridgeType.propane t)) = true ->
        (Rabs (number (butane_to_add f + propane_to_add f)
               - number (missing_gas f
                         * (CartridgeType.butane t + CartridgeType.propane t)))
         <= 5 * (number (missing_gas f)
                 * (number (CartridgeType.butane t) + number (CartridgeType.propane t)))
              * powerRZ 2 (-52)
            + 4 * powerRZ 2 (-1074))%R)
    /\ (finite (butane_to_add f + propane_to_add f) = true ->
        CartridgeType.butane t + CartridgeType.propane t = 1 ->
        (Rabs (number (butane_to_add f + propane_to_add f) - number (missing_gas f))
         <= 5 * number (missing_gas f) * powerRZ 2 (-52) + 3 * powerRZ 2 (-1074))%R).
Proof.
  intros H Nb Np. rewrite (compute_fill_accepts t w H). eexists.
  split; [reflexivity|]. cbn [missing_gas butane_to_add propane_to_add].
  split; [reflexivity|]. split; [reflexivity|].
  set (m := max0 (CartridgeType.full_gas_mass t - (w - CartridgeType.empty_mass t))).
  assert (Nm : (m <? 0) = false) by apply max0_not_negative.
  split.
  - intros FS FT. apply (proj1 (sum_of_products m _ _ Nm Nb Np FS) FT).
  - intros FS E1. apply (proj2 (sum_of_products m _ _ Nm Nb Np FS) E1).
Qed.

Lemma amounts_add_up_within_rounding_witness :
  (CartridgeType.empty_mass scenario_type <=? 201) = true
  /\ (CartridgeType.butane scenario_type <? 0) = false
  /\ (CartridgeType.propane scenario_type <? 0) = false
  /\ (Rabs (number (279.29999999999995 + 119.69999999999999) - number 399)
      <= 5 * number 399 * powerRZ 2 (-52) + 3 * powerRZ 2 (-1074))%R.
Proof.
  split; [reflexivity|]. split; [reflexivity|]. split; [reflexivity|].
  destruct (amounts_add_up_within_rounding scenario_type 201 eq_refl eq_refl eq_refl)
    as (f & Hf & _ & _ & _ & H).
  assert (E : compute_fill scenario_type 201
              = Some {| gas_mass := 1; missing_gas := 399;
                        butane_to_add := 279.29999999999995;
                        propane_to_add := 119.69999999999999 |}) by reflexivity.
  rewrite E in Hf. injection Hf as <-.
  exact (H eq_refl eq_refl).
Defined.

Local Close Scope R_scope.
Local Open Scope Z_scope.

(* ------------------------------------------------------------------ *)
(** * Every call is all or nothing *)

Local Open Scope Z_scope.

(** X19.  Every call is all or nothing: when it returns or raises, the
    session holds no write that is not committed, and a call that raises has
    committed nothing. *)
Theorem calls_are_atomic (d : database) (op : operation) (now : string) :
  seen (perform op) d now = committed (perform op) d now
  /\ (forall e, outcome (perform op) d now = inl e ->
                committed (perform op) d now = d).
Proof.
  unfold seen, committed, outcome.
  destruct op; cbn [perform].
  - destruct (cartridge_types d) eqn:E.
    + rewrite (add_default_on_empty d now E). split; [reflexivity|discriminate].
    + rewrite add_default_on_inhabited by congruence. split; [reflexivity|discriminate].
  - split; [reflexivity|discriminate].
  - destruct (stored_all_four d full_gas_mass empty_mass butane propane)
      as [[x E]|(f' & e' & b' & p' & E)].
    + rewrite (add_cartridge_type_raises _ _ _ _ _ _ _ _ _ E). split; reflexivity.
    + rewrite (add_cartridge_type_runs _ _ _ _ _ _ _ _ _ _ _ _ E).
      destruct (existsb _ (cartridge_types d)); split; try reflexivity; discriminate.
  - destruct (stored_all_four d full_gas_mass empty_mass butane propane)
      as [[x E]|(f' & e' & b' & p' & E)].
    + rewrite (update_cartridge_type_raises _ _ _ _ _ _ _ _ _ _ E). split; reflexivity.
    + rewrite (update_cartridge_type_runs _ _ _ _ _ _ _ _ _ _ _ _ _ E).
      split; [reflexivity|discriminate].
  - rewrite delete_cartridge_type_runs.
    destruct (existsb _ (cartridge_types d)); split; try reflexivity; discriminate.
  - split; reflexivity.
  - split; [reflexivity|discriminate].
  - split; [reflexivity|discriminate].
  - destruct (stored_all_five d new_measured_weight new_gas_mass new_missing_gas
                new_butane_to_add new_propane_to_add)
      as [[x E]|(w' & g' & m' & b' & p' & E)].
    + rewrite (update_transaction_raises _ _ _ _ _ _ _ _ _ _ _ E). split; reflexivity.
    + rewrite (update_transaction_runs _ _ _ _ _ _ _ _ _ _ _ _ _ _ _ E).
      split; [reflexivity|discriminate].
  - unfold calculer_et_enregistrer. destruct (compute_fill selected_type measured_weight);
      split; reflexivity.
  - unfold ajouter. destruct new_name; [split; [reflexivity|discriminate]|].
    unfold bind.
    destruct (stored_all_four d new_full_gas_mass new_empty_mass new_butane new_propane)
      as [[x E]|(f' & e' & b' & p' & E)].
    + rewrite (add_cartridge_type_raises _ _ _ _ _ _ _ _ _ E). split; reflexivity.
    + rewrite (add_cartridge_type_runs _ _ _ _ _ _ _ _ _ _ _ _ E).
      destruct (existsb _ (cartridge_types d)); split; try reflexivity; discriminate.
Qed.
